(** * Conway's Game of Life on a toroidal board (life.py)

    A shallow embedding of the model and persistence layers of [life.py]:
    [make_board], [count_neighbors], [next_gen], [save_pattern],
    [load_patterns] and [apply_pattern].

    Boards are Python lists of lists, that is, mutable objects reached
    through references.  They are modelled in a store ([heap]) that maps
    locations to list objects, and the functions that build or update boards
    run in a state-and-exception monad over that store.  Pattern files are
    texts in a map from file names; reading and writing them goes through
    models of the string operations the code calls ([strip], [split],
    [startswith], [int], the formatting of integers). *)

From stdpp Require Import gmap strings list fin_maps sorting.
From Stdlib Require Import ZArith Ascii.

(** ** Python values, the store and the monad *)

(** The exceptions the modelled code can raise.  [BadRef] stands for a
    reference to no object, a state no Python program can reach.  A run
    ends either with a value or with the exception raised. *)
Inductive exn :=
| IndexError | TypeError | ValueError | ZeroDivisionError | BadRef.

Inductive result (A : Type) :=
| Ok (a : A)
| Raise (e : exn).
Arguments Ok {A} a.
Arguments Raise {A} e.

Definition loc := nat.

(** A value is an integer or a reference to a list object. *)
Inductive val :=
| VInt (z : Z)
| VRef (l : loc).

(** A list object holds its items in order. *)
Abbreviation obj := (list val).
Abbreviation heap := (gmap loc obj).

Definition M (A : Type) : Type := heap → result (A * heap).

#[global] Instance M_ret : MRet M := λ A a h, Ok (a, h).
#[global] Instance M_bind : MBind M := λ A B f m h,
  match m h with
  | Ok (a, h') => f a h'
  | Raise e => Raise e
  end.

Definition raise {A} (e : exn) : M A := λ _, Raise e.

(** A fresh list object. *)
Definition alloc (o : obj) : M val := λ h,
  let l := fresh (dom h) in Ok (VRef l, <[l:=o]> h).

(** The list object a value refers to. *)
Definition deref (v : val) : M obj := λ h,
  match v with
  | VInt _ => Raise TypeError
  | VRef l => match h !! l with
              | Some o => Ok (o, h)
              | None => Raise BadRef
              end
  end.

(** [len(v)] *)
Definition py_len (v : val) : M Z :=
  o ← deref v; mret (Z.of_nat (length o)).

(** Python's list indexing: a negative index counts from the end, an index
    out of range after that has no position. *)
Definition py_index (n : nat) (i : Z) : option nat :=
  let k := if (i <? 0)%Z then (i + Z.of_nat n)%Z else i in
  if ((0 <=? k) && (k <? Z.of_nat n))%Z then Some (Z.to_nat k) else None.

(** [v[i]] *)
Definition getitem (v : val) (i : Z) : M val :=
  o ← deref v;
  match py_index (length o) i ≫= (o !!.) with
  | Some x => mret x
  | None => raise IndexError
  end.

(** [v[i] = x] *)
Definition setitem (v : val) (i : Z) (x : val) : M () := λ h,
  match v with
  | VInt _ => Raise TypeError
  | VRef l =>
      match h !! l with
      | None => Raise BadRef
      | Some o =>
          match py_index (length o) i with
          | Some k => Ok ((), <[l:=<[k:=x]> o]> h)
          | None => Raise IndexError
          end
      end
  end.

(** [a % b] on integers: the result has the sign of [b]. *)
Definition py_mod (a b : Z) : M Z :=
  if (b =? 0)%Z then raise ZeroDivisionError else mret (a mod b)%Z.

(** [total += v] for an integer [total] *)
Definition py_add (total : Z) (v : val) : M Z :=
  match v with
  | VInt z => mret (total + z)%Z
  | VRef _ => raise TypeError
  end.

(** [v == n] for an integer literal [n]; a list never equals an integer. *)
Definition val_eqb (v : val) (n : Z) : bool :=
  match v with
  | VInt z => (z =? n)%Z
  | VRef _ => false
  end.

(** [range(n)] *)
Definition range (n : Z) : list Z := Z.of_nat <$> seq 0 (Z.to_nat n).

(** [for x in xs: body] *)
Fixpoint for_each {A} (xs : list A) (body : A → M ()) : M () :=
  match xs with
  | [] => mret ()
  | x :: xs' => body x;; for_each xs' body
  end.

(** [for x in xs: s = body(x, s)], for a loop that updates local variables *)
Fixpoint for_fold {A S} (xs : list A) (s : S) (body : A → S → M S) : M S :=
  match xs with
  | [] => mret s
  | x :: xs' => s' ← body x s; for_fold xs' s' body
  end.

(** [[f(x) for x in xs]], before the list object is allocated *)
Fixpoint list_comp {A B} (xs : list A) (f : A → M B) : M (list B) :=
  match xs with
  | [] => mret []
  | x :: xs' => y ← f x; ys ← list_comp xs' f; mret (y :: ys)
  end.

(** ** Model *)

Definition make_board (width height : Z) : M val :=
  rows ← list_comp (range height) (λ _,
            cells ← list_comp (range width) (λ _, mret (VInt 0));
            alloc cells);
  alloc rows.

Definition count_neighbors (board : val) (x y : Z) : M Z :=
  H ← py_len board;
  row0 ← getitem board 0;
  W ← py_len row0;
  for_fold [-1; 0; 1]%Z 0%Z (λ dx total,
    for_fold [-1; 0; 1]%Z total (λ dy total,
      if ((dx =? 0) && (dy =? 0))%Z then mret total
      else
        nx ← py_mod (x + dx) H;
        ny ← py_mod (y + dy) W;
        row ← getitem board nx;
        cell ← getitem row ny;
        py_add total cell)).

Definition next_gen (board : val) : M val :=
  H ← py_len board;
  row0 ← getitem board 0;
  W ← py_len row0;
  new_board ← make_board W H;
  for_each (range H) (λ i,
    for_each (range W) (λ j,
      neighbors ← count_neighbors board i j;
      row ← getitem board i;
      cell ← getitem row j;
      if val_eqb cell 1 && ((neighbors =? 2) || (neighbors =? 3))%Z then
        new_row ← getitem new_board i;
        setitem new_row j (VInt 1)
      else
        row' ← getitem board i;
        cell' ← getitem row' j;
        if val_eqb cell' 0 && (neighbors =? 3)%Z then
          new_row ← getitem new_board i;
          setitem new_row j (VInt 1)
        else mret ()));;
  mret new_board.

Definition apply_pattern (board : val) (coords : list (Z * Z)) : M val :=
  H ← py_len board;
  row0 ← getitem board 0;
  W ← py_len row0;
  new_board ← make_board W H;
  for_each coords (λ '(i, j),
    if ((0 <=? i) && (i <? H) && ((0 <=? j) && (j <? W)))%Z then
      new_row ← getitem new_board i;
      setitem new_row j (VInt 1)
    else mret ());;
  mret new_board.

(** ** Boards in the store *)

(** A grid is the list of its rows, each the list of its cells. *)
Abbreviation grid := (list (list Z)).

(** [is_board h b g]: in [h], the value [b] is a list of row objects whose
    cells are the integers of [g].  Rows may be shared. *)
Definition is_board (h : heap) (b : val) (g : grid) : Prop :=
  ∃ (l : loc) (rows : list loc),
    b = VRef l ∧ h !! l = Some (VRef <$> rows) ∧
    Forall2 (λ r row, h !! r = Some (VInt <$> row)) rows g.

Definition blinker : grid :=
  [[0;0;0;0;0]; [0;0;0;0;0]; [0;1;1;1;0]; [0;0;0;0;0]; [0;0;0;0;0]]%Z.

(** A 3x4 grid and a store that holds it as a board at location 3. *)
Definition small_grid : grid := [[0;1;0;0]; [0;1;1;0]; [0;0;0;1]]%Z.
Definition small_heap : heap :=
  <[3:=VRef <$> [0; 1; 2]]>
    (<[2:=VInt <$> [0;0;0;1]%Z]>
       (<[1:=VInt <$> [0;1;1;0]%Z]> (<[0:=VInt <$> [0;1;0;0]%Z]> ∅))).

(** A store that holds the 1x1 grid of one dead cell as a board at
    location 1. *)
Definition dead_heap : heap := <[1:=[VRef 0]]> (<[0:=[VInt 0]]> ∅).

(** Reading a board back from the store. *)
Definition read_row (h : heap) (v : val) : option (list Z) :=
  match v with
  | VRef r => o ← h !! r; mapM (λ c, match c with VInt z => Some z | _ => None end) o
  | _ => None
  end.
Definition read_board (h : heap) (b : val) : option grid :=
  match b with
  | VRef l => o ← h !! l; mapM (read_row h) o
  | _ => None
  end.

(** Building a board from a grid, row objects first. *)
Definition alloc_grid (g : grid) : M val :=
  rows ← list_comp g (λ row, alloc (VInt <$> row));
  alloc rows.

(** ** Grids as values: the vocabulary of the specification *)

Definition dims (g : grid) (H W : nat) : Prop :=
  length g = H ∧ Forall (λ row, length row = W) g.

Definition binary (g : grid) : Prop :=
  Forall (Forall (λ c, c = 0 ∨ c = 1)%Z) g.

(** The cell at row [i], column [j]; no cell outside the grid. *)
Definition cell_at (g : grid) (i j : Z) : option Z :=
  if ((i <? 0) || (j <? 0))%Z then None
  else row ← g !! Z.to_nat i; row !! Z.to_nat j.

Definition is_alive (g : grid) (p : Z * Z) : bool :=
  bool_decide (cell_at g p.1 p.2 = Some 1%Z).

Definition alive (g : grid) (i j : Z) : Prop := cell_at g i j = Some 1%Z.
Definition dead (g : grid) (i j : Z) : Prop := cell_at g i j = Some 0%Z.

(** The 8 toroidal positions around [(i, j)] on an [H]x[W] torus. *)
Definition torus_neighbors (H W i j : Z) : list (Z * Z) :=
  dx ← [-1; 0; 1]%Z; dy ← [-1; 0; 1]%Z;
  if ((dx =? 0) && (dy =? 0))%Z then []
  else [((i + dx) mod H, (j + dy) mod W)%Z].

(** The number of alive cells among them, each of the 8 positions counted
    as listed (on a board with fewer than 3 rows or columns several of them
    are the same cell). *)
Definition neighbor_count (g : grid) (H W : nat) (i j : Z) : Z :=
  Z.of_nat (length (filter (λ p, is_alive g p = true)
                      (torus_neighbors (Z.of_nat H) (Z.of_nat W) i j))).

(** What [count_neighbors] adds up: the cells themselves. *)
Definition cell (g : grid) (i j : Z) : Z := default 0%Z (cell_at g i j).

Definition neighbor_total (g : grid) (H W : nat) (i j : Z) : Z :=
  foldl (λ total p, total + cell g p.1 p.2)%Z 0%Z
    (torus_neighbors (Z.of_nat H) (Z.of_nat W) i j).

(** The decision [next_gen] takes for a cell [c] with [n] neighbours. *)
Definition life_rule (c n : Z) : Z :=
  if ((c =? 1) && ((n =? 2) || (n =? 3)))%Z then 1%Z
  else if ((c =? 0) && (n =? 3))%Z then 1%Z else 0%Z.

(** The grid with [f i j] at row [i], column [j]. *)
Definition tabulate (f : nat → nat → Z) (H W : nat) : grid :=
  (λ i, f i <$> seq 0 W) <$> seq 0 H.

(** ** Freshly allocated boards *)

(** [owns_board h0 h l rows f H W]: the store [h] extends [h0] with a board at
    [l] whose [H] row objects [rows] are pairwise distinct, absent from [h0],
    and hold [f i j] at row [i], column [j]. *)
Definition owns_board (h0 h : heap) (l : loc) (rows : list loc)
    (f : nat → nat → Z) (H W : nat) : Prop :=
  h0 ⊆ h ∧ h0 !! l = None ∧ h !! l = Some (VRef <$> rows) ∧
  length rows = H ∧ NoDup rows ∧ (l ∉ rows) ∧
  (∀ i r, rows !! i = Some r →
     h0 !! r = None ∧
     ∃ o, h !! r = Some (VInt <$> o) ∧ length o = W ∧
          ∀ j, j < W → o !! j = Some (f i j)).

(** The cell [next_gen] writes at row [i], column [j]. *)
Definition next_cell (g : grid) (H W : nat) (i j : nat) : Z :=
  life_rule (cell g (Z.of_nat i) (Z.of_nat j))
            (neighbor_total g H W (Z.of_nat i) (Z.of_nat j)).


(** ** Python strings

    A [string] stands for a Python [str] whose characters are the code
    points 0 to 255.  Conversions between integers and text are modelled
    without the interpreter's configurable limit on the number of digits. *)

Definition newline : ascii := "010"%char.
Definition carriage_return : ascii := "013"%char.

(** [c.isspace()], the characters [str.strip] removes *)
Definition is_space (c : ascii) : bool :=
  let n := N_of_ascii c in
  ((9 <=? n) && (n <=? 13) || (28 <=? n) && (n <=? 32)
   || (n =? 133) || (n =? 160))%N.

(** The characters [int] accepts around a number: as [is_space] but for the
    four separators 28 to 31. *)
Definition is_int_space (c : ascii) : bool :=
  let n := N_of_ascii c in
  ((9 <=? n) && (n <=? 13) || (n =? 32) || (n =? 133) || (n =? 160))%N.

Definition is_digit (c : ascii) : bool :=
  let n := N_of_ascii c in ((48 <=? n) && (n <=? 57))%N.

Definition digit_val (c : ascii) : Z := (Z.of_N (N_of_ascii c) - 48)%Z.

Definition digit_char (d : Z) : ascii := ascii_of_N (Z.to_N (48 + d)).

Fixpoint lstrip (s : string) : string :=
  match s with
  | String c r => if is_space c then lstrip r else s
  | "" => ""
  end.

Fixpoint rstrip (s : string) : string :=
  match s with
  | String c r =>
      match rstrip r with
      | "" => if is_space c then "" else String c ""
      | r' => String c r'
      end
  | "" => ""
  end.

(** [s.strip()] *)
Definition strip (s : string) : string := rstrip (lstrip s).

(** [s.startswith(p)] *)
Definition startswith (s p : string) : bool := String.prefix p s.

(** [s.split(sep)] for a one-character separator *)
Fixpoint split (sep : ascii) (s : string) : list string :=
  match s with
  | "" => [""]
  | String c r =>
      if decide (c = sep) then "" :: split sep r
      else match split sep r with
           | p :: ps => String c p :: ps
           | [] => [String c ""]
           end
  end.

(** [s.split(sep, 1)] for a one-character separator *)
Fixpoint split1 (sep : ascii) (s : string) : list string :=
  match s with
  | "" => [""]
  | String c r =>
      if decide (c = sep) then [""; r]
      else match split1 sep r with
           | p :: ps => String c p :: ps
           | [] => [String c ""]
           end
  end.

(** The digits of [int(s)], after the sign: decimal digits, single
    underscores between digits, then spaces up to the end. *)
Fixpoint all_int_space (s : string) : bool :=
  match s with
  | "" => true
  | String c r => is_int_space c && all_int_space r
  end.

Fixpoint parse_digits (acc : Z) (after_digit : bool) (s : string) : option Z :=
  match s with
  | "" => if after_digit then Some acc else None
  | String c r =>
      if is_digit c then parse_digits (10 * acc + digit_val c) true r
      else if decide (c = "_"%char) then
        if after_digit then parse_digits acc false r else None
      else if after_digit && all_int_space s then Some acc else None
  end.

Fixpoint skip_int_space (s : string) : string :=
  match s with
  | String c r => if is_int_space c then skip_int_space r else s
  | "" => ""
  end.

(** [int(s)] *)
Definition py_int (s : string) : result Z :=
  let digits sign r :=
    match parse_digits 0 false r with
    | Some n => Ok (sign * n)%Z
    | None => Raise ValueError
    end in
  match skip_int_space s with
  | String "+" r => digits 1%Z r
  | String "-" r => digits (-1)%Z r
  | r => digits 1%Z r
  end.

(** [str(n)] *)
Fixpoint str_digits (fuel : nat) (n : Z) (acc : string) : string :=
  match fuel with
  | O => acc
  | S fuel' =>
      let acc' := String (digit_char (n mod 10)) acc in
      if (n / 10 =? 0)%Z then acc' else str_digits fuel' (n / 10) acc'
  end.

Definition str_nonneg (n : Z) : string :=
  str_digits (S (Z.to_nat (Z.log2 n))) n "".

Definition py_str (n : Z) : string :=
  if (n <? 0)%Z then String "-" (str_nonneg (- n)) else str_nonneg n.

(** The lines a text file yields when iterated: each ends with the newline
    that closed it, but for a last line that had none; a carriage return,
    alone or before a newline, is read as a newline. *)
Fixpoint file_lines (s : string) : list string :=
  match s with
  | "" => []
  | String c r =>
      if decide (c = newline) then String newline "" :: file_lines r
      else if decide (c = carriage_return) then
        match r with
        | String c' r' =>
            if decide (c' = newline) then String newline "" :: file_lines r'
            else String newline "" :: file_lines r
        | "" => [String newline ""]
        end
      else match file_lines r with
           | l :: ls => String c l :: ls
           | [] => [String c ""]
           end
  end.

(** ** Persistence *)

#[global] Instance result_ret : MRet result := λ A a, Ok a.
#[global] Instance result_bind : MBind result := λ A B f m,
  match m with
  | Ok a => f a
  | Raise e => Raise e
  end.

(** [for x in xs: s = body(x, s)] in code that does not touch the store *)
Fixpoint fold_res {A S} (xs : list A) (s : S) (body : A → S → result S)
    : result S :=
  match xs with
  | [] => Ok s
  | x :: xs' => s' ← body x s; fold_res xs' s' body
  end.

(** The text of each file, by name.  Text is written as it is (the line
    separator of the platform is the newline). *)
Abbreviation files := (gmap string string).

(** The items a [for] loop over [v] runs through. *)
Definition py_iter (h : heap) (v : val) : result (list val) :=
  match v with
  | VInt _ => Raise TypeError
  | VRef l => match h !! l with
              | Some o => Ok o
              | None => Raise BadRef
              end
  end.

(** [enumerate(xs)], and the same counting from [k] *)
Fixpoint enumerate_from {A} (k : nat) (xs : list A) : list (Z * A) :=
  match xs with
  | [] => []
  | x :: xs' => (Z.of_nat k, x) :: enumerate_from (S k) xs'
  end.
Definition enumerate {A} (xs : list A) : list (Z * A) := enumerate_from 0 xs.

Definition nl : string := String newline "".

(** [save_pattern] opens [filename] for writing and writes line after line;
    [f] is the text written so far, stored under [filename] at the end. *)
Definition save_pattern (board : val) (filename : string) (h : heap)
    (fs : files) : result files :=
  let f := "# Pattern: Saved" +:+ nl in
  rows ← py_iter h board;
  f ← fold_res (enumerate rows) f (λ '(i, row) f,
        cells ← py_iter h row;
        fold_res (enumerate cells) f (λ '(j, cell) f,
          if val_eqb cell 1
          then Ok (f +:+ (py_str i +:+ "," +:+ py_str j +:+ nl))
          else Ok f));
  Ok (<[filename:=f]> fs).

(** The local variables of [load_patterns]. *)
Record loader := Loader {
  patterns : gmap string (list (Z * Z));
  current_name : option string;
  coords : list (Z * Z)
}.

(** [if current_name and coords: patterns[current_name] = coords] *)
Definition store_block (st : loader) : gmap string (list (Z * Z)) :=
  match current_name st with
  | Some name =>
      if bool_decide (name ≠ "") && bool_decide (coords st ≠ [])
      then <[name:=coords st]> (patterns st)
      else patterns st
  | None => patterns st
  end.

(** [i, j = map(int, line.split(","))]: whether a conversion fails or the
    number of parts is not two, the exception is a [ValueError]. *)
Definition parse_pair (line : string) : result (Z * Z) :=
  match split "," line with
  | [a; b] => i ← py_int a; j ← py_int b; Ok (i, j)
  | _ => Raise ValueError
  end.

(** The body of the loop over the lines of the file. *)
Definition load_line (st : loader) (raw : string) : result loader :=
  let line := strip raw in
  if decide (line = "") then Ok st
  else if startswith line "# Pattern:" then
    let patterns' := store_block st in
    match split1 ":" line !! 1 with
    | Some rest => Ok (Loader patterns' (Some (strip rest)) [])
    | None => Raise IndexError
    end
  else
    match parse_pair line with
    | Ok (i, j) => Ok (Loader (patterns st) (current_name st) (coords st ++ [(i, j)]))
    | Raise ValueError => Ok st
    | Raise e => Raise e
    end.

Definition load_lines (lines : list string)
    : result (gmap string (list (Z * Z))) :=
  st ← fold_res lines (Loader ∅ None []) (λ line st, load_line st line);
  Ok (store_block st).

(** A file that does not exist gives no patterns. *)
Definition load_patterns (filename : string) (fs : files)
    : result (gmap string (list (Z * Z))) :=
  match fs !! filename with
  | Some text => load_lines (file_lines text)
  | None => Ok ∅
  end.

(** ** The text format, in the words of the specification *)

(** The alive cells of a grid, rows from the top, each from the left. *)
Definition alive_cells (g : grid) : list (Z * Z) :=
  '(i, row) ← enumerate g; '(j, c) ← enumerate row;
  if (c =? 1)%Z then [(i, j)] else [].

Definition coord_line (p : Z * Z) : string :=
  py_str p.1 +:+ "," +:+ py_str p.2 +:+ nl.

Definition unlines (ls : list string) : string := foldr String.append "" ls.

(** One header line naming the pattern, then one line per alive cell. *)
Definition encode (name : string) (g : grid) : string :=
  ("# Pattern: " +:+ name +:+ nl) +:+ unlines (coord_line <$> alive_cells g).

(** Whether every character of a string passes a test. *)
Fixpoint all_chars (P : ascii → bool) (s : string) : bool :=
  match s with
  | "" => true
  | String c r => P c && all_chars P r
  end.

(** The characters of the coordinates of a written line. *)
Definition coord_char (c : ascii) : bool :=
  is_digit c || bool_decide (c = ","%char).

(** ** The lines of a pattern file *)

(** A header line, as [load_line] tests it. *)
Definition is_header (raw : string) : bool := startswith (strip raw) "# Pattern:".

(** A header line that names [name], as [load_line] extracts it. *)
Definition header_of (raw name : string) : Prop :=
  is_header raw = true ∧
  ∃ rest, split1 ":" (strip raw) !! 1 = Some rest ∧ strip rest = name.

(** The coordinates a line that is not a header adds: one pair or none. *)
Definition line_coords (raw : string) : list (Z * Z) :=
  match parse_pair (strip raw) with
  | Ok p => [p]
  | Raise _ => []
  end.

Definition body_coords (lines : list string) : list (Z * Z) :=
  lines ≫= line_coords.

Definition add_coords (st : loader) (cs : list (Z * Z)) : loader :=
  Loader (patterns st) (current_name st) (coords st ++ cs).

Fixpoint sdrop (n : nat) (s : string) : string :=
  match n, s with
  | S n', String _ r => sdrop n' r
  | _, _ => s
  end.

(** The name of a header line: what follows its first colon, stripped. *)
Definition header_name (raw : string) : string := strip (sdrop 10 (strip raw)).

(** [load_line] as a total function. *)
Definition next_state (st : loader) (raw : string) : loader :=
  if is_header raw then Loader (store_block st) (Some (header_name raw)) []
  else add_coords st (line_coords raw).

(** What [store_block] keeps: no empty name, no empty coordinate list. *)
Definition tidy (P : gmap string (list (Z * Z))) : Prop :=
  P !! "" = None ∧ ∀ n cs, P !! n = Some cs → cs ≠ [].

(** Under the empty name the coordinates never matter. *)
Definition same_but_dropped (st1 st2 : loader) : Prop :=
  patterns st1 = patterns st2 ∧ current_name st1 = current_name st2 ∧
  (current_name st1 = Some "" ∨ coords st1 = coords st2).

(** A file with a header, one coordinate line and one malformed line. *)
Definition malformed_text : string :=
  "# Pattern: P" +:+ nl +:+ "1,2" +:+ nl +:+ "abc" +:+ nl.

(** The alive cells of one row, and of the rows from the [k]th on. *)
Definition row_cells (i : Z) (k : nat) (row : list Z) : list (Z * Z) :=
  '(j, c) ← enumerate_from k row; if (c =? 1)%Z then [(i, j)] else [].

Definition cells_from (k : nat) (g : grid) : list (Z * Z) :=
  '(i, row) ← enumerate_from k g; row_cells i 0 row.

(** Scan order: an upper row first, and within a row the left cell first. *)
Definition scan_lt (p q : Z * Z) : Prop :=
  (p.1 < q.1 ∨ (p.1 = q.1 ∧ p.2 < q.2))%Z.

(** A written coordinate line without its newline. *)
Definition coord_str (p : Z * Z) : string := py_str p.1 +:+ "," +:+ py_str p.2.

Definition not_eol (c : ascii) : bool :=
  bool_decide (c ≠ newline) && bool_decide (c ≠ carriage_return).

(** ** Further vocabulary *)

(** The grid of [H] rows of [W] dead cells. *)
Definition blank (H W : nat) : grid := replicate H (replicate W 0%Z).






(** What [load_patterns] keeps about names: those stored and the one of the
    block in progress are stripped. *)
Definition names_stripped (st : loader) : Prop :=
  (∀ n cs, patterns st !! n = Some cs → strip n = n) ∧
  (∀ n, current_name st = Some n → strip n = n).

(** ** View *)

(** The display is modelled by the drawing calls made on it, in order. *)
Inductive draw_call :=
| Fill (color : Z * Z * Z)
| Rect (color : Z * Z * Z) (rect : Z * Z * Z * Z).

(** [draw_board] clears the screen, draws a square for every alive cell and
    returns how many it drew; [screen] is the display before, the second
    component of the result the display after. *)
Definition draw_board (screen : list draw_call) (board : val) (cell_size : Z)
    : M (Z * list draw_call) :=
  let screen := screen ++ [Fill (0, 0, 0)%Z] in
  H ← py_len board;
  row0 ← getitem board 0;
  W ← py_len row0;
  let live_count := 0%Z in
  for_fold (range H) (live_count, screen) (λ i s,
    for_fold (range W) s (λ j '(live_count, screen),
      row ← getitem board i;
      cell ← getitem row j;
      if val_eqb cell 1 then
        mret ((live_count + 1)%Z,
              screen ++ [Rect (0, 255, 0)%Z
                           (j * cell_size, i * cell_size,
                            cell_size - 1, cell_size - 1)%Z])
      else mret (live_count, screen))).

(** The square of the cell at row [p.1], column [p.2]. *)
Definition cell_rect (cell_size : Z) (p : Z * Z) : draw_call :=
  Rect (0, 255, 0)%Z
    (p.2 * cell_size, p.1 * cell_size, cell_size - 1, cell_size - 1)%Z.

(** Counting a cell and drawing its square. *)
Definition draw_cell (cell_size : Z) (s : Z * list draw_call) (p : Z * Z)
    : Z * list draw_call :=
  ((s.1 + 1)%Z, s.2 ++ [cell_rect cell_size p]).

(** ** Main loop

    [main] runs forever: each turn it draws, then handles the events pygame
    reports, then advances the board when the simulation is running.  What
    pygame and [random] return is input here: an event comes with the state
    of the mouse read while it is handled and with the outcomes of the calls
    of [random.choice] made for it. *)

Inductive key :=
| K_SPACE | K_n | K_c | K_r | K_s | K_l
| K_1 | K_2 | K_3 | K_4 | K_5
| K_other.

Inductive event_type := QUIT | KEYDOWN | OTHER.

Record event := Event {
  ev_type : event_type;
  ev_key : key;                (* [event.key], read for [KEYDOWN] only *)
  mouse_pressed : bool;        (* [pygame.mouse.get_pressed()[0]] *)
  mouse_pos : Z * Z;           (* [pygame.mouse.get_pos()] *)
  ev_choice : Z → Z → bool     (* [random.choice([0, 1])] for cell [i], [j] *)
}.

(** The values [main] fixes before its loop: the arguments, the patterns
    loaded from [patterns.txt], and the item a dictionary that is not empty
    yields first ([next(iter(d.items()))]), which depends on the order of
    insertion and is left open. *)
Record config := Config {
  cfg_W : Z;
  cfg_H : Z;
  cfg_patterns : gmap string (list (Z * Z));
  cfg_first : gmap string (list (Z * Z)) → string * list (Z * Z)
}.

Definition CELL_SIZE : Z := 20.

Definition pattern_keys (k : key) : option string :=
  match k with
  | K_1 => Some "Glider"
  | K_2 => Some "Blinker"
  | K_3 => Some "Toad"
  | K_4 => Some "Pulsar"
  | K_5 => Some "Lightweight Spaceship (LWSS)"
  | _ => None
  end.

(** The store, the files, what was printed, and the variables [board],
    [running] and [generation] of [main]. *)
Record world := World {
  w_heap : heap;
  w_files : gmap string string;
  w_out : list string;
  w_board : val;
  w_running : bool;
  w_generation : Z
}.

(** How handling an event ends: the loop goes on, the program exits
    ([sys.exit()]), or an exception leaves [main]. *)
Inductive outcome :=
| Continue (w : world)
| Exit
| Failed (e : exn).

(** [if event.type == pygame.KEYDOWN: ...] *)
Definition key_down (cfg : config) (ev : event) (w : world) : result world :=
  let '(World h fs out board running generation) := w in
  match ev_key ev with
  | K_SPACE => Ok (World h fs out board (negb running) generation)
  | K_n =>
      '(board', h') ← next_gen board h;
      Ok (World h' fs out board' false (generation + 1))
  | K_c =>
      '(board', h') ← make_board (cfg_W cfg) (cfg_H cfg) h;
      Ok (World h' fs out board' running 0)
  | K_r =>
      '(_, h') ← for_each (range (cfg_H cfg)) (λ i,
                   for_each (range (cfg_W cfg)) (λ j,
                     row ← getitem board i;
                     setitem row j (VInt (Z.b2z (ev_choice ev i j))))) h;
      Ok (World h' fs out board running 0)
  | K_s =>
      fs' ← save_pattern board "saved.txt" h fs;
      Ok (World h fs' (out ++ ["Saved current pattern to saved.txt"])
            board running generation)
  | K_l =>
      saved ← load_patterns "saved.txt" fs;
      if bool_decide (saved ≠ ∅) then
        let '(name, coords) := cfg_first cfg saved in
        '(board', h') ← (b ← make_board (cfg_W cfg) (cfg_H cfg);
                         apply_pattern b coords) h;
        Ok (World h' fs (out ++ ["Loaded saved pattern: " +:+ name])
              board' running 0)
      else Ok w
  | k =>
      match pattern_keys k with
      | Some name =>
          match cfg_patterns cfg !! name with
          | Some coords =>
              '(board', h') ← (b ← make_board (cfg_W cfg) (cfg_H cfg);
                               apply_pattern b coords) h;
              Ok (World h' fs (out ++ ["Loaded pattern: " +:+ name])
                    board' running 0)
          | None => Ok w
          end
      | None => Ok w
      end
  end.

(** [if pygame.mouse.get_pressed()[0]: ...] *)
Definition mouse_click (cfg : config) (ev : event) (w : world) : result world :=
  let '(World h fs out board running generation) := w in
  if mouse_pressed ev then
    let '(mx, my) := mouse_pos ev in
    if (my <? cfg_H cfg * CELL_SIZE)%Z then
      let j := (mx / CELL_SIZE)%Z in
      let i := (my / CELL_SIZE)%Z in
      '(_, h') ← (row ← getitem board i; setitem row j (VInt 1)) h;
      Ok (World h' fs out board running generation)
    else Ok w
  else Ok w.

(** The body of [for event in pygame.event.get(): ...] *)
Definition handle_event (cfg : config) (ev : event) (w : world) : outcome :=
  match ev_type ev with
  | QUIT => Exit
  | t =>
      let after_key :=
        match t with
        | KEYDOWN => key_down cfg ev w
        | _ => Ok w
        end in
      match w' ← after_key; mouse_click cfg ev w' with
      | Ok w' => Continue w'
      | Raise e => Failed e
      end
  end.

(** [if running: board = next_gen(board); generation += 1] *)
Definition run_step (w : world) : result world :=
  let '(World h fs out board running generation) := w in
  if running then
    '(board', h') ← next_gen board h;
    Ok (World h' fs out board' running (generation + 1))
  else Ok w.

(** The board of [main] is a board of its own: [H] separate rows of [W]
    integers. *)
Definition main_board (H W : nat) (w : world) (g : grid) : Prop :=
  ∃ l rows f,
    w_board w = VRef l ∧ owns_board ∅ (w_heap w) l rows f H W ∧
    g = tabulate f H W.

(** A world of [main] with the 3x4 board of [small_heap], and a choice of
    the first item of a dictionary. *)
Definition small_world : world := World small_heap ∅ [] (VRef 3) false 5.

Definition running_world : world := World small_heap ∅ [] (VRef 3) true 5.

Definition first_listed (m : gmap string (list (Z * Z))) : string * list (Z * Z) :=
  default ("", []) (head (map_to_list m)).

(** ** Shifting a grid around the torus *)

(** The grid whose cell [(i, j)] is the cell [(i + n, j + m)] of [g], rows
    and columns taken cyclically. *)
Definition shift (n m : nat) (g : grid) : grid := rotate n (rotate m <$> g).

(** A store that holds [small_grid] shifted by one row and one column as a
    board at location 3. *)
Definition shifted_heap : heap :=
  <[3:=VRef <$> [0; 1; 2]]>
    (<[2:=VInt <$> [1;0;0;0]%Z]>
       (<[1:=VInt <$> [0;0;1;0]%Z]> (<[0:=VInt <$> [1;1;0;0]%Z]> ∅))).

(** [n] turns of the loop of [main] without events: only the step of the
    simulation changes the variables. *)
Fixpoint run_steps (n : nat) (w : world) : result world :=
  match n with
  | O => Ok w
  | S n' => w' ← run_step w; run_steps n' w'
  end.
(** * Proofs *)

(** ** The model on examples *)

(** The scenario of the specification: on a 5x5 board the horizontal blinker
    of row 2 becomes the vertical blinker of column 2. *)
Example blinker_step :
  match (b ← alloc_grid blinker; next_gen b) ∅ with
  | Ok (b', h') => read_board h' b'
  | Raise _ => None
  end
  = Some [[0;0;0;0;0]; [0;0;1;0;0]; [0;0;1;0;0]; [0;0;1;0;0]; [0;0;0;0;0]]%Z.
Proof. reflexivity. Qed.

(** A live cell at [(0, 0)] counts the live cell at [(H-1, W-1)]. *)
Example corner_wraps :
  match (b ← alloc_grid [[1;0;0]; [0;0;0]; [0;0;1]]%Z; count_neighbors b 0 0) ∅ with
  | Ok (n, _) => Some n
  | Raise _ => None
  end = Some 1%Z.
Proof. reflexivity. Qed.

Example py_int_examples :
  py_int " 12 " = Ok 12%Z ∧ py_int "-7" = Ok (-7)%Z ∧ py_int "+1_0" = Ok 10%Z ∧
  py_int "0010" = Ok 10%Z ∧ py_int "" = Raise ValueError ∧
  py_int "- 1" = Raise ValueError ∧ py_int "1_" = Raise ValueError ∧
  py_int "1__0" = Raise ValueError ∧ py_int "1 2" = Raise ValueError ∧
  py_int "abc" = Raise ValueError ∧
  py_int (String "028" "1") = Raise ValueError ∧
  py_int (String "160" "1") = Ok 1%Z.
Proof. repeat split; reflexivity. Qed.

Example py_str_examples :
  py_str 0 = "0" ∧ py_str 7 = "7" ∧ py_str 10 = "10" ∧ py_str 1024 = "1024" ∧
  py_str (-3) = "-3".
Proof. repeat split; reflexivity. Qed.

Example split_examples :
  split "," "" = [""] ∧ split "," "1,2," = ["1"; "2"; ""] ∧
  split1 ":" "a:b:c" = ["a"; "b:c"] ∧ split1 ":" "abc" = ["abc"].
Proof. repeat split; reflexivity. Qed.

Example file_lines_example :
  file_lines ("a" +:+ nl +:+ "b" +:+ String carriage_return nl
              +:+ "c" +:+ String carriage_return "d")
  = ["a" +:+ nl; "b" +:+ nl; "c" +:+ nl; "d"].
Proof. reflexivity. Qed.

Example load_lines_example :
  load_lines ["3,4"; "# Pattern: A "; " 1 , 2 "; "abc"; "1,2,3"; "";
              "# Pattern: B"; "# Pattern:C:D"; "5,-6"]
  = Ok {["A" := [(1, 2)%Z]; "C:D" := [(5, -6)%Z]]}.
Proof. reflexivity. Qed.

(** ** The monad: running a computation *)

Lemma bind_Ok {A B} (m : M A) (f : A → M B) h a h' :
  m h = Ok (a, h') → (m ≫= f) h = f a h'.
Proof. intros E. unfold mbind, M_bind. by rewrite E. Qed.

Lemma for_each_inv {A} (I : nat → heap → Prop) (xs : list A) body h :
  I 0 h →
  (∀ k x h1, xs !! k = Some x → I k h1 →
     ∃ h2, body x h1 = Ok ((), h2) ∧ I (S k) h2) →
  ∃ h', for_each xs body h = Ok ((), h') ∧ I (length xs) h'.
Proof.
  revert I h. induction xs as [|x xs IH]; intros I h H0 Hstep.
  - by exists h.
  - destruct (Hstep 0 x h eq_refl H0) as (h1 & E1 & H1).
    destruct (IH (λ k, I (S k)) h1 H1) as (h' & E' & H').
    { intros k y h2 Hy. by apply (Hstep (S k)). }
    exists h'. split; [|done]. simpl. by rewrite (bind_Ok _ _ _ _ _ E1).
Qed.

Lemma range_lookup n k x :
  range (Z.of_nat n) !! k = Some x → x = Z.of_nat k ∧ k < n.
Proof.
  unfold range. rewrite Nat2Z.id, list_lookup_fmap.
  destruct (seq 0 n !! k) as [y|] eqn:E; [|done].
  apply lookup_seq in E as [-> ?]. intros [= <-]. done.
Qed.

Lemma range_length n : length (range (Z.of_nat n)) = n.
Proof. unfold range. by rewrite length_fmap, length_seq, Nat2Z.id. Qed.

Lemma for_each_range_inv (I : nat → heap → Prop) n body h :
  I 0 h →
  (∀ k h1, k < n → I k h1 →
     ∃ h2, body (Z.of_nat k) h1 = Ok ((), h2) ∧ I (S k) h2) →
  ∃ h', for_each (range (Z.of_nat n)) body h = Ok ((), h') ∧ I n h'.
Proof.
  intros H0 Hstep.
  destruct (for_each_inv I (range (Z.of_nat n)) body h H0) as (h' & E & HI).
  - intros k x h1 Hx. apply range_lookup in Hx as [-> ?]. by apply Hstep.
  - exists h'. by rewrite range_length in HI.
Qed.

Lemma for_fold_pure {A S} (xs : list A) (body : A → S → M S) (g : S → A → S) s h :
  (∀ a s, body a s h = Ok (g s a, h)) →
  for_fold xs s body h = Ok (foldl g s xs, h).
Proof.
  intros Hb. revert s. induction xs as [|x xs IH]; intros s; [done|].
  simpl. by rewrite (bind_Ok _ _ _ _ _ (Hb x s)).
Qed.

Lemma list_comp_pure {A B} (xs : list A) (v : B) h :
  list_comp xs (λ _, mret v) h = Ok (replicate (length xs) v, h).
Proof.
  induction xs as [|x xs IH]; [done|]. simpl.
  unfold mbind, M_bind, mret, M_ret in *. by rewrite IH.
Qed.

(** ** Allocation of a board *)

Lemma alloc_fresh (o : obj) h :
  ∃ l, alloc o h = Ok (VRef l, <[l:=o]> h) ∧ h !! l = None.
Proof.
  exists (fresh (dom h)). split; [done|].
  apply not_elem_of_dom, is_fresh.
Qed.

Lemma alloc_rows {A} (xs : list A) (ys : list Z) h :
  let o := replicate (length ys) (VInt 0) in
  ∃ rows h',
    list_comp xs (λ _, cells ← list_comp ys (λ _, mret (VInt 0)); alloc cells) h
      = Ok (VRef <$> rows, h') ∧
    h ⊆ h' ∧ length rows = length xs ∧ NoDup rows ∧
    (∀ r, r ∈ rows → h !! r = None ∧ h' !! r = Some o) ∧
    (∀ l, l ∉ rows → h' !! l = h !! l).
Proof.
  intros o. revert h. induction xs as [|x xs IH]; intros h.
  - exists [], h. split; [done|]. split; [done|]. split; [done|].
    split; [apply NoDup_nil_2|]. split; [|done]. by intros r ?%elem_of_nil.
  - destruct (alloc_fresh o h) as (r0 & Ea & Hr0).
    destruct (IH (<[r0:=o]> h)) as (rows & h' & E & Hsub & Hlen & Hnd & Hrows & Hother).
    assert (r0 ∉ rows) as Hnotin.
    { intros Hin. apply Hrows in Hin as [Hn _]. by rewrite lookup_insert_eq in Hn. }
    exists (r0 :: rows), h'. split; [|split; [|split; [|split; [|split]]]].
    + simpl. unfold mbind at 1, M_bind at 1.
      rewrite (bind_Ok _ _ _ _ _ (list_comp_pure ys (VInt 0) h)).
      fold o. rewrite Ea. unfold mbind, M_bind in E |- *. by rewrite E.
    + etrans; [|exact Hsub]. by apply insert_subseteq.
    + simpl. by rewrite Hlen.
    + by constructor.
    + intros r [->|Hin]%elem_of_cons.
      * split; [done|]. eapply lookup_weaken; [|exact Hsub]. apply lookup_insert_eq.
      * destruct (Hrows r Hin) as [Hn Hs]. split; [|done].
        destruct (decide (r = r0)) as [->|Hne]; [done|].
        by rewrite lookup_insert_ne in Hn.
    + intros l Hl. apply not_elem_of_cons in Hl as [Hne Hl].
      rewrite (Hother l Hl). by rewrite lookup_insert_ne.
Qed.

Lemma make_board_spec (W H : nat) h :
  ∃ l rows h',
    make_board (Z.of_nat W) (Z.of_nat H) h = Ok (VRef l, h') ∧
    owns_board h h' l rows (λ _ _, 0%Z) H W.
Proof.
  destruct (alloc_rows (range (Z.of_nat H)) (range (Z.of_nat W)) h)
    as (rows & h1 & E & Hsub & Hlen & Hnd & Hrows & Hother).
  rewrite !range_length in *. 
  destruct (alloc_fresh (VRef <$> rows) h1) as (l & Ea & Hl).
  assert (l ∉ rows) as Hnotin.
  { intros Hin. apply Hrows in Hin as [_ Hs]. congruence. }
  exists l, rows, (<[l:=VRef <$> rows]> h1). split.
  { unfold make_board. by rewrite (bind_Ok _ _ _ _ _ E). }
  split; [|split; [|split; [|split; [|split; [|split]]]]]; try done.
  - etrans; [exact Hsub|]. by apply insert_subseteq.
  - eapply lookup_weaken_None; [exact Hl|exact Hsub].
  - apply lookup_insert_eq.
  - intros i r Hi. apply list_elem_of_lookup_2 in Hi.
    destruct (Hrows r Hi) as [Hn Hs]. split; [done|].
    exists (replicate W 0%Z). split; [|split].
    + rewrite lookup_insert_ne by (intros ->; done).
      rewrite Hs. by rewrite fmap_replicate.
    + apply length_replicate.
    + intros j Hj. by apply lookup_replicate_2.
Qed.

(** ** Reading a board *)

Lemma py_index_nat n k : k < n → py_index n (Z.of_nat k) = Some k.
Proof.
  intros Hk. unfold py_index.
  destruct (Z.ltb_spec (Z.of_nat k) 0); [lia|].
  destruct (Z.leb_spec 0 (Z.of_nat k)); [|lia].
  destruct (Z.ltb_spec (Z.of_nat k) (Z.of_nat n)); [|lia].
  simpl. by rewrite Nat2Z.id.
Qed.

Lemma py_len_Ok h l (o : obj) :
  h !! l = Some o → py_len (VRef l) h = Ok (Z.of_nat (length o), h).
Proof. intros E. unfold py_len, mbind, M_bind, deref. by rewrite E. Qed.

Lemma getitem_Ok h l (o : obj) k x :
  h !! l = Some o → o !! k = Some x →
  getitem (VRef l) (Z.of_nat k) h = Ok (x, h).
Proof.
  intros E Hx. unfold getitem, mbind at 1, M_bind, deref. rewrite E.
  rewrite py_index_nat by (by eapply lookup_lt_Some). simpl. by rewrite Hx.
Qed.

Lemma is_board_mono h h' b g : h ⊆ h' → is_board h b g → is_board h' b g.
Proof.
  intros Hsub (l & rows & -> & Hl & Hrows). exists l, rows.
  split; [done|]. split; [by eapply lookup_weaken|].
  eapply Forall2_impl; [exact Hrows|]. simpl. intros r row Hr.
  eapply lookup_weaken; [exact Hr|exact Hsub].
Qed.

Lemma is_board_row h l rows g i row :
  h !! l = Some (VRef <$> rows) →
  Forall2 (λ r row, h !! r = Some (VInt <$> row)) rows g →
  g !! i = Some row →
  ∃ r, getitem (VRef l) (Z.of_nat i) h = Ok (VRef r, h) ∧
       h !! r = Some (VInt <$> row).
Proof.
  intros Hl Hrows Hi.
  destruct (Forall2_lookup_r _ _ _ _ _ Hrows Hi) as (r & Hr & Hrow).
  exists r. split; [|done].
  eapply getitem_Ok; [exact Hl|]. by rewrite list_lookup_fmap, Hr.
Qed.

Lemma is_board_cell {A} h b g i j row c (K : val → M A) :
  is_board h b g → g !! i = Some row → row !! j = Some c →
  (r ← getitem b (Z.of_nat i); x ← getitem r (Z.of_nat j); K x) h
  = K (VInt c) h.
Proof.
  intros (l & rows & -> & Hl & Hrows) Hi Hj.
  destruct (is_board_row _ _ _ _ _ _ Hl Hrows Hi) as (r & E & Hr).
  rewrite (bind_Ok _ _ _ _ _ E). apply bind_Ok.
  eapply getitem_Ok; [exact Hr|]. by rewrite list_lookup_fmap, Hj.
Qed.

Lemma dims_lookup g H W i :
  dims g H W → i < H → ∃ row, g !! i = Some row ∧ length row = W.
Proof.
  intros [Hlen Hall] Hi.
  destruct (lookup_lt_is_Some_2 g i) as [row Hrow]; [lia|].
  exists row. split; [done|].
  by apply (Forall_lookup_1 _ _ _ _ Hall Hrow).
Qed.

Lemma dims_cell g H W i j :
  dims g H W → i < H → j < W →
  ∃ row, g !! i = Some row ∧
         row !! j = Some (cell g (Z.of_nat i) (Z.of_nat j)).
Proof.
  intros Hd Hi Hj. destruct (dims_lookup _ _ _ _ Hd Hi) as (row & Hrow & Hlen).
  exists row. split; [done|].
  destruct (lookup_lt_is_Some_2 row j) as [c Hc]; [lia|].
  rewrite Hc. unfold cell, cell_at.
  destruct (Z.ltb_spec (Z.of_nat i) 0); [lia|].
  destruct (Z.ltb_spec (Z.of_nat j) 0); [lia|].
  simpl. rewrite !Nat2Z.id, Hrow. simpl. by rewrite Hc.
Qed.

Lemma board_dims h b g H W :
  is_board h b g → dims g H W → 0 < H →
  ∃ row0, py_len b h = Ok (Z.of_nat H, h) ∧
          getitem b 0 h = Ok (row0, h) ∧
          py_len row0 h = Ok (Z.of_nat W, h).
Proof.
  intros (l & rows & -> & Hl & Hrows) Hd HH.
  destruct (dims_lookup _ _ _ 0 Hd HH) as (row & Hrow & Hlen).
  destruct (is_board_row _ _ _ _ _ _ Hl Hrows Hrow) as (r & E & Hr).
  exists (VRef r). split; [|split; [done|]].
  - rewrite (py_len_Ok _ _ _ Hl), length_fmap.
    by rewrite (Forall2_length _ _ _ Hrows), (proj1 Hd).
  - by rewrite (py_len_Ok _ _ _ Hr), length_fmap, Hlen.
Qed.

(** ** Neighbour counting *)

Lemma py_mod_Ok a n h :
  0 < n → ∃ k, k < n ∧ (a mod Z.of_nat n)%Z = Z.of_nat k ∧
               py_mod a (Z.of_nat n) h = Ok (Z.of_nat k, h).
Proof.
  intros Hn. exists (Z.to_nat (a mod Z.of_nat n)).
  pose proof (Z.mod_pos_bound a (Z.of_nat n)) as Hb.
  split; [lia|]. split; [lia|]. unfold py_mod.
  destruct (Z.eqb_spec (Z.of_nat n) 0); [lia|].
  rewrite Z2Nat.id by lia. done.
Qed.

(** One neighbour lookup of [count_neighbors]. *)
Lemma neighbor_lookup h b g H W a c total :
  is_board h b g → dims g H W → 0 < H → 0 < W →
  (nx ← py_mod a (Z.of_nat H);
   ny ← py_mod c (Z.of_nat W);
   row ← getitem b nx;
   cell ← getitem row ny;
   py_add total cell) h
  = Ok ((total + cell g (a mod Z.of_nat H) (c mod Z.of_nat W))%Z, h).
Proof.
  intros Hb Hd HH HW.
  destruct (py_mod_Ok a H h HH) as (i & Hi & -> & Ei).
  destruct (py_mod_Ok c W h HW) as (j & Hj & -> & Ej).
  rewrite (bind_Ok _ _ _ _ _ Ei), (bind_Ok _ _ _ _ _ Ej).
  destruct (dims_cell _ _ _ _ _ Hd Hi Hj) as (row & Hrow & Hc).
  by rewrite (is_board_cell _ _ _ _ _ _ _ _ Hb Hrow Hc).
Qed.

Lemma count_neighbors_spec h b g H W x y :
  is_board h b g → dims g H W → 0 < H → 0 < W →
  count_neighbors b x y h = Ok (neighbor_total g H W x y, h).
Proof.
  intros Hb Hd HH HW.
  destruct (board_dims _ _ _ _ _ Hb Hd HH) as (row0 & E1 & E2 & E3).
  unfold count_neighbors.
  rewrite (bind_Ok _ _ _ _ _ E1), (bind_Ok _ _ _ _ _ E2), (bind_Ok _ _ _ _ _ E3).
  erewrite for_fold_pure; last first.
  { intros dx total. apply (for_fold_pure _ _ (λ s dy,
      if ((dx =? 0) && (dy =? 0))%Z then s
      else (s + cell g ((x + dx) mod Z.of_nat H) ((y + dy) mod Z.of_nat W))%Z)).
    intros dy s. destruct ((dx =? 0) && (dy =? 0))%Z; [done|].
    by apply neighbor_lookup. }
  reflexivity.
Qed.

Lemma binary_cell g i j : binary g → cell g i j = 0%Z ∨ cell g i j = 1%Z.
Proof.
  intros Hb. unfold cell, cell_at.
  destruct ((i <? 0) || (j <? 0))%Z; [by left|].
  destruct (g !! Z.to_nat i) as [row|] eqn:Hrow; [|by left]. simpl.
  destruct (row !! Z.to_nat j) as [c|] eqn:Hc; [|by left]. simpl.
  eapply Forall_lookup_1 in Hrow; [|exact Hb].
  by eapply Forall_lookup_1 in Hc; [|exact Hrow].
Qed.

Lemma is_alive_cell g p : is_alive g p = true ↔ cell g p.1 p.2 = 1%Z.
Proof.
  unfold is_alive, cell. rewrite bool_decide_eq_true.
  destruct (cell_at g p.1 p.2) as [c|]; simpl; [|done].
  split; [by intros [= ->]|by intros ->].
Qed.

(** On a grid of 0s and 1s, adding up cells counts the alive ones. *)
Lemma total_is_count g (ps : list (Z * Z)) a :
  binary g →
  foldl (λ total p, total + cell g p.1 p.2)%Z a ps
  = (a + Z.of_nat (length (filter (λ p, is_alive g p = true) ps)))%Z.
Proof.
  intros Hb. revert a. induction ps as [|p ps IH]; intros a; simpl; [lia|].
  rewrite IH, filter_cons. pose proof (is_alive_cell g p) as Hp.
  destruct (decide (is_alive g p = true)) as [Ha|Hn].
  - apply Hp in Ha. simpl. lia.
  - destruct (binary_cell g p.1 p.2 Hb) as [E|E]; [lia|]. by apply Hp in E.
Qed.

Lemma neighbor_total_count g H W i j :
  binary g → neighbor_total g H W i j = neighbor_count g H W i j.
Proof. intros Hb. unfold neighbor_total. by rewrite total_is_count. Qed.

(** ** Writing into a freshly allocated board *)

Lemma owns_board_ext h0 h l rows f f' H W :
  (∀ i j, i < H → j < W → f i j = f' i j) →
  owns_board h0 h l rows f H W → owns_board h0 h l rows f' H W.
Proof.
  intros Hext (Hsub & Hl0 & Hl & Hlen & Hnd & Hnotin & Hrows).
  repeat (split; [done|]). intros i r Hi.
  destruct (Hrows i r Hi) as (Hr0 & o & Ho & Holen & Hcells).
  split; [done|]. exists o. repeat (split; [done|]).
  intros j Hj. rewrite (Hcells j Hj). f_equal. apply Hext; [|done].
  apply lookup_lt_Some in Hi. lia.
Qed.

Lemma owns_board_is_board h0 h l rows f H W :
  owns_board h0 h l rows f H W → is_board h (VRef l) (tabulate f H W).
Proof.
  intros (Hsub & Hl0 & Hl & Hlen & Hnd & Hnotin & Hrows).
  exists l, rows. repeat (split; [done|]).
  apply Forall2_same_length_lookup_2.
  { unfold tabulate. by rewrite length_fmap, length_seq. }
  intros i r row Hi Hrow.
  destruct (Hrows i r Hi) as (_ & o & Ho & Holen & Hcells).
  rewrite Ho. do 2 f_equal. unfold tabulate in Hrow.
  rewrite list_lookup_fmap in Hrow.
  destruct (seq 0 H !! i) as [i'|] eqn:Ei; [|done].
  apply lookup_seq in Ei as [-> _]. simpl in Hrow. injection Hrow as <-.
  apply list_eq_same_length with W; [by rewrite length_fmap, length_seq|done|].
  intros j x y Hj Hx Hy. rewrite (Hcells j Hj) in Hx.
  rewrite list_lookup_fmap, lookup_seq_lt in Hy by done. simpl in Hy. congruence.
Qed.

(** [new_board[i][j] = 1] *)
Lemma owns_board_set h0 h l rows f H W i j :
  owns_board h0 h l rows f H W → i < H → j < W →
  ∃ h',
    (new_row ← getitem (VRef l) (Z.of_nat i);
     setitem new_row (Z.of_nat j) (VInt 1)) h = Ok ((), h') ∧
    owns_board h0 h' l rows
      (λ i' j', if decide (i' = i ∧ j' = j) then 1%Z else f i' j') H W.
Proof.
  intros (Hsub & Hl0 & Hl & Hlen & Hnd & Hnotin & Hrows) Hi Hj.
  destruct (lookup_lt_is_Some_2 rows i) as [r Hr]; [lia|].
  destruct (Hrows i r Hr) as (Hr0 & o & Ho & Holen & Hcells).
  exists (<[r:=VInt <$> <[j:=1%Z]> o]> h). split.
  { erewrite bind_Ok; last first.
    { eapply getitem_Ok; [exact Hl|]. by rewrite list_lookup_fmap, Hr. }
    unfold setitem. rewrite Ho, py_index_nat by (rewrite length_fmap; lia).
    by rewrite list_fmap_insert. }
  assert (l ≠ r) as Hlr.
  { intros ->. apply Hnotin. by eapply list_elem_of_lookup_2. }
  split; [by apply insert_subseteq_r|]. split; [done|].
  split; [by rewrite lookup_insert_ne|]. repeat (split; [done|]).
  intros i' r' Hr'. destruct (Hrows i' r' Hr') as (Hr0' & o' & Ho' & Holen' & Hcells').
  split; [done|]. destruct (decide (i' = i)) as [->|Hne].
  - assert (r' = r) as -> by congruence.
    exists (<[j:=1%Z]> o). rewrite lookup_insert_eq. split; [done|].
    split; [by rewrite length_insert|]. intros j' Hj'.
    destruct (decide (j' = j)) as [->|Hnej].
    + rewrite decide_True by done. apply list_lookup_insert_eq. lia.
    + rewrite decide_False by (intros [_ ?]; done).
      rewrite list_lookup_insert_ne by done. by apply Hcells.
  - assert (r' ≠ r) as Hner.
    { intros ->. apply Hne. by eapply NoDup_lookup. }
    exists o'. rewrite lookup_insert_ne by done. repeat (split; [done|]).
    intros j' Hj'. rewrite decide_False by (intros [? _]; done). by apply Hcells'.
Qed.

(** ** One generation *)

Ltac by_cases := intros; cbv beta; repeat case_decide; first [done | lia].

Lemma next_gen_spec h b g H W :
  is_board h b g → dims g H W → 0 < H → 0 < W →
  ∃ l rows h',
    next_gen b h = Ok (VRef l, h') ∧
    owns_board h h' l rows (next_cell g H W) H W.
Proof.
  intros Hb Hd HH HW.
  destruct (board_dims _ _ _ _ _ Hb Hd HH) as (row0 & E1 & E2 & E3).
  destruct (make_board_spec W H h) as (l & rows & h1 & Emk & Hown).
  unfold next_gen.
  rewrite (bind_Ok _ _ _ _ _ E1), (bind_Ok _ _ _ _ _ E2), (bind_Ok _ _ _ _ _ E3).
  rewrite (bind_Ok _ _ _ _ _ Emk).
  match goal with |- context [for_each _ ?body] =>
    destruct (for_each_range_inv
      (λ k h', owns_board h h' l rows
         (λ i' j', if decide (i' < k) then next_cell g H W i' j' else 0%Z) H W)
      H body h1) as (h' & E & Hfin)
  end.
  - eapply owns_board_ext; [|exact Hown]. by_cases.
  - intros i h2 Hi Hout. cbv beta.
    match goal with |- context [for_each _ ?body] =>
      destruct (for_each_range_inv
        (λ k h', owns_board h h' l rows
           (λ i' j', if decide (i' < i ∨ (i' = i ∧ j' < k))
                     then next_cell g H W i' j' else 0%Z) H W)
        W body h2) as (h3 & E & Hfin)
    end.
    + eapply owns_board_ext; [|exact Hout]. by_cases.
    + intros j h3 Hj Hin. cbv beta.
      assert (is_board h3 b g) as Hb3 by (eapply is_board_mono; [apply Hin|done]).
      rewrite (bind_Ok _ _ _ _ _ (count_neighbors_spec _ _ _ _ _ _ _ Hb3 Hd HH HW)).
      destruct (dims_cell _ _ _ _ _ Hd Hi Hj) as (row & Hrow & Hc).
      rewrite (is_board_cell _ _ _ _ _ _ _ _ Hb3 Hrow Hc).
      assert (next_cell g H W i j
              = life_rule (cell g (Z.of_nat i) (Z.of_nat j))
                  (neighbor_total g H W (Z.of_nat i) (Z.of_nat j))) as Hnext by done.
      unfold life_rule in Hnext. unfold val_eqb.
      destruct (owns_board_set _ _ _ _ _ _ _ _ _ Hin Hi Hj) as (h4 & Eset & Hset).
      assert (next_cell g H W i j = 1%Z →
              owns_board h h4 l rows
                (λ i' j', if decide (i' < i ∨ i' = i ∧ j' < S j)
                          then next_cell g H W i' j' else 0%Z) H W) as Hwrite.
      { intros H1. eapply owns_board_ext; [|exact Hset]. intros i' j' _ _. cbv beta.
        destruct (decide (i' = i ∧ j' = j)) as [[-> ->]|Hne].
        - by rewrite decide_True by lia.
        - by_cases. }
      assert (next_cell g H W i j = 0%Z →
              owns_board h h3 l rows
                (λ i' j', if decide (i' < i ∨ i' = i ∧ j' < S j)
                          then next_cell g H W i' j' else 0%Z) H W) as Hskip.
      { intros H0. eapply owns_board_ext; [|exact Hin]. intros i' j' _ _. cbv beta.
        destruct (decide (i' = i ∧ j' = j)) as [[-> ->]|Hne].
        - rewrite decide_False, decide_True by lia. done.
        - by_cases. }
      destruct ((_ =? 1)%Z && _) eqn:C1.
      { exists h4. split; [done|]. by apply Hwrite. }
      rewrite (is_board_cell _ _ _ _ _ _ _ _ Hb3 Hrow Hc). unfold val_eqb.
      destruct ((_ =? 0)%Z && _) eqn:C2.
      { exists h4. split; [done|]. by apply Hwrite. }
      exists h3. split; [done|]. by apply Hskip.
    + exists h3. split; [done|].
      eapply owns_board_ext; [|exact Hfin]. intros i' j' _ Hj'. by_cases.
  - exists l, rows, h'. split; [by rewrite (bind_Ok _ _ _ _ _ E)|].
    eapply owns_board_ext; [|exact Hfin]. by_cases.
Qed.

(** ** Grids built cell by cell *)

Lemma tabulate_dims f H W : dims (tabulate f H W) H W.
Proof.
  split.
  - unfold tabulate. by rewrite length_fmap, length_seq.
  - unfold tabulate. apply Forall_fmap, Forall_forall. intros i _. simpl.
    by rewrite length_fmap, length_seq.
Qed.

Lemma cell_at_tabulate f H W (i j : Z) :
  cell_at (tabulate f H W) i j
  = if decide (0 ≤ i < Z.of_nat H ∧ 0 ≤ j < Z.of_nat W)%Z
    then Some (f (Z.to_nat i) (Z.to_nat j)) else None.
Proof.
  unfold cell_at, tabulate.
  destruct (Z.ltb_spec i 0); simpl; [by rewrite decide_False by lia|].
  destruct (Z.ltb_spec j 0); simpl; [by rewrite decide_False by lia|].
  rewrite list_lookup_fmap.
  destruct (decide (Z.to_nat i < H)) as [Hi|Hi].
  - rewrite lookup_seq_lt by done. simpl. rewrite list_lookup_fmap.
    destruct (decide (Z.to_nat j < W)) as [Hj|Hj].
    + rewrite lookup_seq_lt by done. simpl. by rewrite decide_True by lia.
    + rewrite lookup_seq_ge by lia. simpl. by rewrite decide_False by lia.
  - rewrite lookup_seq_ge by lia. simpl. by rewrite decide_False by lia.
Qed.

Lemma cell_at_in_range g H W (i j : Z) :
  dims g H W → (0 ≤ i < Z.of_nat H)%Z → (0 ≤ j < Z.of_nat W)%Z →
  cell_at g i j = Some (cell g i j).
Proof.
  intros Hd Hi Hj.
  destruct (dims_cell g H W (Z.to_nat i) (Z.to_nat j) Hd) as (row & Hrow & Hc);
    [lia..|].
  rewrite !Z2Nat.id in Hc by lia. rewrite <- Hc. unfold cell_at.
  destruct (Z.ltb_spec i 0); [lia|]. destruct (Z.ltb_spec j 0); [lia|].
  simpl. by rewrite Hrow.
Qed.

#[local] Instance VRef_inj : Inj (=) (=) VRef.
Proof. by intros ?? [=]. Qed.
#[local] Instance VInt_inj : Inj (=) (=) VInt.
Proof. by intros ?? [=]. Qed.

Lemma is_board_functional h b g1 g2 :
  is_board h b g1 → is_board h b g2 → g1 = g2.
Proof.
  intros (l & rows & -> & Hl & Hrows) (l' & rows' & [= <-] & Hl' & Hrows').
  rewrite Hl in Hl'. injection Hl' as Heq.
  apply (inj (fmap VRef)) in Heq as <-.
  clear Hl. revert g2 Hrows'. induction Hrows as [|r row rows g1 Hr _ IH]; intros g2 H2.
  - by apply Forall2_nil_inv_l in H2.
  - apply Forall2_cons_inv_l in H2 as (row' & g2' & Hr' & H2 & ->).
    rewrite Hr in Hr'. injection Hr' as Heq.
    apply (inj (fmap VInt)) in Heq as <-. f_equal. by apply IH.
Qed.

(** ** Applying a pattern *)

Lemma apply_pattern_spec h b g H W (coords : list (Z * Z)) :
  is_board h b g → dims g H W → 0 < H → 0 < W →
  ∃ l rows h',
    apply_pattern b coords h = Ok (VRef l, h') ∧
    owns_board h h' l rows
      (λ i j, if decide ((Z.of_nat i, Z.of_nat j) ∈ coords) then 1%Z else 0%Z)
      H W.
Proof.
  intros Hb Hd HH HW.
  destruct (board_dims _ _ _ _ _ Hb Hd HH) as (row0 & E1 & E2 & E3).
  destruct (make_board_spec W H h) as (l & rows & h1 & Emk & Hown).
  unfold apply_pattern.
  rewrite (bind_Ok _ _ _ _ _ E1), (bind_Ok _ _ _ _ _ E2), (bind_Ok _ _ _ _ _ E3).
  rewrite (bind_Ok _ _ _ _ _ Emk).
  match goal with |- context [for_each _ ?body] =>
    destruct (for_each_inv
      (λ k h', owns_board h h' l rows
         (λ i j, if decide ((Z.of_nat i, Z.of_nat j) ∈ take k coords)
                 then 1%Z else 0%Z) H W)
      coords body h1) as (h' & E & Hfin)
  end.
  - eapply owns_board_ext; [|exact Hown]. intros i j _ _. cbv beta.
    rewrite take_0, decide_False; [done|]. apply not_elem_of_nil.
  - intros k [i j] h2 Hk Hinv. rewrite (take_S_r _ _ _ Hk).
    destruct (_ && _) eqn:C.
    + assert (∃ i' j', i = Z.of_nat i' ∧ j = Z.of_nat j' ∧ i' < H ∧ j' < W)
        as (i' & j' & -> & -> & Hi & Hj) by (exists (Z.to_nat i), (Z.to_nat j); lia).
      destruct (owns_board_set _ _ _ _ _ _ _ _ _ Hinv Hi Hj) as (h3 & Eset & Hset).
      exists h3. split; [done|].
      eapply owns_board_ext; [|exact Hset]. intros i j _ _. cbv beta.
      destruct (decide (i = i' ∧ j = j')) as [[-> ->]|Hne].
      * rewrite decide_True; [done|]. apply elem_of_app. right. by apply list_elem_of_singleton.
      * destruct (decide ((Z.of_nat i, Z.of_nat j) ∈ take k coords)) as [Hin|Hnin].
        -- rewrite decide_True; [done|]. apply elem_of_app. by left.
        -- rewrite decide_False; [done|]. intros [?|Heq%list_elem_of_singleton]%elem_of_app;
             [done|]. injection Heq as ?%Nat2Z.inj ?%Nat2Z.inj. by apply Hne.
    + exists h2. split; [done|].
      eapply owns_board_ext; [|exact Hinv]. intros i' j' Hi' Hj'. cbv beta.
      destruct (decide ((Z.of_nat i', Z.of_nat j') ∈ take k coords)) as [Hin|Hnin].
      * rewrite decide_True; [done|]. apply elem_of_app. by left.
      * rewrite decide_False; [done|]. intros [?|Heq%list_elem_of_singleton]%elem_of_app;
          [done|]. injection Heq as <- <-. lia.
  - exists l, rows, h'. split; [by rewrite (bind_Ok _ _ _ _ _ E)|].
    by rewrite firstn_all in Hfin.
Qed.

Lemma tabulate_binary f H W :
  (∀ i j, f i j = 0%Z ∨ f i j = 1%Z) → binary (tabulate f H W).
Proof.
  intros Hf. unfold binary, tabulate. apply Forall_fmap, Forall_forall.
  intros i _. simpl. apply Forall_fmap, Forall_forall. intros j _. apply Hf.
Qed.

Lemma tabulate_const (c : Z) H W :
  tabulate (λ _ _, c) H W = replicate H (replicate W c).
Proof.
  unfold tabulate.
  rewrite (const_fmap _ (seq 0 H) (replicate W c)), length_seq; [done|].
  intros i. by rewrite (const_fmap _ (seq 0 W) c), length_seq.
Qed.

Lemma make_board_to_nat width height :
  make_board width height
  = make_board (Z.of_nat (Z.to_nat width)) (Z.of_nat (Z.to_nat height)).
Proof. unfold make_board, range. by rewrite !Nat2Z.id. Qed.

(** ** Strings *)

Lemma sapp_nil_l (s : string) : "" +:+ s = s.
Proof. done. Qed.

Lemma sapp_cons c (s t : string) : String c s +:+ t = String c (s +:+ t).
Proof. done. Qed.

Lemma sapp_nil_r (s : string) : s +:+ "" = s.
Proof. induction s as [|c s IH]; [done|]. by rewrite sapp_cons, IH. Qed.

Lemma sapp_assoc (s t u : string) : (s +:+ t) +:+ u = s +:+ (t +:+ u).
Proof. induction s as [|c s IH]; [done|]. by rewrite !sapp_cons, IH. Qed.

Lemma all_chars_app P (s t : string) :
  all_chars P (s +:+ t) = all_chars P s && all_chars P t.
Proof.
  induction s as [|c s IH]; [done|].
  rewrite sapp_cons. simpl. by rewrite IH, andb_assoc.
Qed.

Lemma all_chars_impl (P Q : ascii → bool) s :
  (∀ c, P c = true → Q c = true) → all_chars P s = true → all_chars Q s = true.
Proof.
  intros HPQ. induction s as [|c s IH]; [done|]. simpl.
  intros [Hc Hs]%andb_prop. by rewrite (HPQ c Hc), IH.
Qed.

(** What a digit is not. *)
Lemma digit_facts c :
  is_digit c = true →
  is_space c = false ∧ is_int_space c = false ∧
  c ≠ newline ∧ c ≠ carriage_return ∧ c ≠ ","%char ∧ c ≠ "_"%char ∧
  c ≠ "+"%char ∧ c ≠ "-"%char ∧ c ≠ "#"%char.
Proof.
  destruct c as [[] [] [] [] [] [] [] []]; intros Hd; try discriminate Hd;
    by repeat split.
Qed.

Lemma coord_char_facts c :
  coord_char c = true →
  is_space c = false ∧ c ≠ newline ∧ c ≠ carriage_return.
Proof.
  destruct c as [[] [] [] [] [] [] [] []]; intros Hd; try discriminate Hd;
    by repeat split.
Qed.

Lemma digit_char_spec d :
  (0 ≤ d < 10)%Z →
  is_digit (digit_char d) = true ∧ digit_val (digit_char d) = d.
Proof.
  intros Hd.
  assert (d = 0 ∨ d = 1 ∨ d = 2 ∨ d = 3 ∨ d = 4 ∨ d = 5 ∨ d = 6 ∨ d = 7
          ∨ d = 8 ∨ d = 9)%Z as Hcases by lia.
  repeat (destruct Hcases as [->|Hcases]; [done|]). by subst.
Qed.

(** ** Printing and reading integers *)

Lemma str_digits_all fuel n acc :
  (0 ≤ n)%Z → all_chars is_digit acc = true →
  all_chars is_digit (str_digits fuel n acc) = true.
Proof.
  revert n acc. induction fuel as [|fuel IH]; intros n acc Hn Hacc; [done|].
  simpl. pose proof (Z.mod_pos_bound n 10) as Hm.
  destruct (digit_char_spec (n mod 10)) as [Hd _]; [lia|].
  destruct (n / 10 =? 0)%Z.
  - simpl. by rewrite Hd, Hacc.
  - apply IH; [apply Z.div_pos; lia|]. simpl. by rewrite Hd, Hacc.
Qed.

Lemma str_digits_nonempty fuel n acc :
  str_digits (S fuel) n acc ≠ "".
Proof.
  revert n acc. induction fuel as [|fuel IH]; intros n acc.
  - simpl. by destruct (n / 10 =? 0)%Z.
  - change (str_digits (S (S fuel)) n acc)
      with (let acc' := String (digit_char (n mod 10)) acc in
            if (n / 10 =? 0)%Z then acc' else str_digits (S fuel) (n / 10) acc').
    simpl. destruct (n / 10 =? 0)%Z; [done|]. apply IH.
Qed.

Lemma parse_str_digits fuel n acc b :
  (0 ≤ n < 10 ^ Z.of_nat (S fuel))%Z →
  parse_digits 0 b (str_digits (S fuel) n acc) = parse_digits n true acc.
Proof.
  revert n acc b. induction fuel as [|fuel IH]; intros n acc b Hn.
  - change (10 ^ Z.of_nat 1)%Z with 10%Z in Hn.
    destruct (digit_char_spec n Hn) as [Hd Hv].
    simpl. rewrite (Z.div_small n 10), (Z.mod_small n 10) by lia.
    simpl. by rewrite Hd, Hv.
  - change (str_digits (S (S fuel)) n acc)
      with (let acc' := String (digit_char (n mod 10)) acc in
            if (n / 10 =? 0)%Z then acc' else str_digits (S fuel) (n / 10) acc').
    cbv zeta. pose proof (Z.mod_pos_bound n 10) as Hm.
    destruct (digit_char_spec (n mod 10)) as [Hd Hv]; [lia|].
    pose proof (Z.div_mod n 10) as Hdm.
    destruct (Z.eqb_spec (n / 10) 0) as [Hz|Hz].
    + simpl. rewrite Hd, Hv. f_equal. lia.
    + rewrite IH.
      * simpl. rewrite Hd, Hv. f_equal. lia.
      * split; [apply Z.div_pos; lia|]. apply Z.div_lt_upper_bound; [lia|].
        rewrite Nat2Z.inj_succ, Z.pow_succ_r in Hn by lia. lia.
Qed.

Lemma str_nonneg_fuel n : (0 ≤ n)%Z → (n < 10 ^ Z.of_nat (S (Z.to_nat (Z.log2 n))))%Z.
Proof.
  intros Hn. pose proof (Z.log2_nonneg n) as Hl.
  rewrite Nat2Z.inj_succ, Z2Nat.id by lia.
  destruct (decide (n = 0%Z)) as [->|Hne]; [done|].
  pose proof (Z.log2_spec n) as [_ Hlt]; [lia|].
  eapply Z.lt_le_trans; [exact Hlt|].
  apply Z.pow_le_mono_l. lia.
Qed.

Lemma str_nonneg_digits n :
  (0 ≤ n)%Z →
  all_chars is_digit (str_nonneg n) = true ∧
  ∃ d r, str_nonneg n = String d r ∧ is_digit d = true.
Proof.
  intros Hn.
  assert (all_chars is_digit (str_nonneg n) = true) as Hall
    by (by apply str_digits_all).
  split; [done|]. unfold str_nonneg in *.
  pose proof (str_digits_nonempty (Z.to_nat (Z.log2 n)) n "") as Hne.
  destruct (str_digits _ n "") as [|d r]; [done|].
  exists d, r. split; [done|]. simpl in Hall. by apply andb_prop in Hall as [? _].
Qed.

Lemma py_int_digits d r :
  is_digit d = true →
  py_int (String d r)
  = match parse_digits 0 false (String d r) with
    | Some n => Ok (1 * n)%Z
    | None => Raise ValueError
    end.
Proof.
  destruct d as [[] [] [] [] [] [] [] []]; intros Hd; try discriminate Hd;
    reflexivity.
Qed.

Lemma py_int_str_nonneg n : (0 ≤ n)%Z → py_int (str_nonneg n) = Ok n.
Proof.
  intros Hn. destruct (str_nonneg_digits n Hn) as (_ & d & r & E & Hd).
  rewrite E, (py_int_digits _ _ Hd), <- E. unfold str_nonneg.
  rewrite parse_str_digits by (split; [done|by apply str_nonneg_fuel]).
  simpl. f_equal. lia.
Qed.


(** ** Reading a pattern file line by line *)

Lemma fold_res_Ok {A S} (xs : list A) (body : A → S → result S) (f : S → A → S) s :
  (∀ x s, body x s = Ok (f s x)) → fold_res xs s body = Ok (foldl f s xs).
Proof.
  intros Hb. revert s. induction xs as [|x xs IH]; intros s; [done|].
  simpl. rewrite Hb. apply IH.
Qed.

Lemma prefix_split (p s : string) :
  String.prefix p s = true → s = p +:+ sdrop (String.length p) s.
Proof.
  revert s. induction p as [|a p IH]; intros s; [done|].
  destruct s as [|b s]; [done|]. simpl.
  destruct (ascii_dec a b) as [->|]; [|done].
  intros Hp. rewrite sapp_cons. f_equal. by apply IH.
Qed.

Lemma header_split1 line :
  startswith line "# Pattern:" = true →
  split1 ":" line !! 1 = Some (sdrop 10 line).
Proof.
  intros Hp. apply prefix_split in Hp. simpl String.length in Hp.
  rewrite Hp at 1. reflexivity.
Qed.

Lemma is_header_header_of raw : is_header raw = true → header_of raw (header_name raw).
Proof.
  intros Hh. split; [done|]. exists (sdrop 10 (strip raw)).
  split; [by apply header_split1|done].
Qed.

Lemma header_of_name raw n : header_of raw n → header_name raw = n.
Proof.
  intros (Hh & rest & Hrest & <-). rewrite (header_split1 _ Hh) in Hrest.
  by injection Hrest as <-.
Qed.

Lemma py_int_raises s e : py_int s = Raise e → e = ValueError.
Proof.
  unfold py_int. destruct (skip_int_space s) as [|c r].
  - simpl. by intros [= <-].
  - destruct c as [[] [] [] [] [] [] [] []];
      cbv beta iota; destruct (parse_digits 0 false _); by intros [= <-].
Qed.

Lemma parse_pair_raises line e : parse_pair line = Raise e → e = ValueError.
Proof.
  unfold parse_pair. destruct (split "," line) as [|a [|b [|c l]]];
    try by intros [= <-].
  destruct (py_int a) as [i|e1] eqn:Ea; simpl.
  - destruct (py_int b) as [j|e2] eqn:Eb; simpl; [done|].
    intros [= <-]. by eapply py_int_raises.
  - intros [= <-]. by eapply py_int_raises.
Qed.

Lemma add_coords_nil st : add_coords st [] = st.
Proof. destruct st. unfold add_coords. simpl. by rewrite app_nil_r. Qed.

(** [load_line] never raises. *)
Lemma load_line_next st raw : load_line st raw = Ok (next_state st raw).
Proof.
  unfold load_line, next_state, is_header, line_coords.
  destruct (decide (strip raw = "")) as [->|Hne].
  { simpl. by rewrite add_coords_nil. }
  destruct (startswith (strip raw) "# Pattern:") eqn:Hh.
  - by rewrite (header_split1 _ Hh).
  - destruct (parse_pair (strip raw)) as [[i j]|e] eqn:Ep; [done|].
    rewrite (parse_pair_raises _ _ Ep). by rewrite add_coords_nil.
Qed.

Lemma load_lines_run lines :
  load_lines lines = Ok (store_block (foldl next_state (Loader ∅ None []) lines)).
Proof.
  unfold load_lines.
  by rewrite (fold_res_Ok _ _ next_state _ (λ x s, load_line_next s x)).
Qed.

Lemma next_state_header st raw n :
  header_of raw n → next_state st raw = Loader (store_block st) (Some n) [].
Proof.
  intros Hh. unfold next_state. rewrite (proj1 Hh).
  by rewrite (header_of_name _ _ Hh).
Qed.

(** Lines that are not headers only add their coordinates. *)
Lemma run_body st body :
  Forall (λ raw, is_header raw = false) body →
  foldl next_state st body = add_coords st (body_coords body).
Proof.
  intros Hb. revert st. induction Hb as [|raw body Hraw _ IH]; intros st.
  - simpl. by rewrite add_coords_nil.
  - simpl. rewrite IH. unfold next_state. rewrite Hraw.
    unfold add_coords, body_coords. simpl. by rewrite app_assoc.
Qed.

Lemma store_block_no_coords P name : store_block (Loader P name []) = P.
Proof.
  unfold store_block. simpl. destruct name as [n|]; [|done].
  by rewrite andb_false_r.
Qed.

Lemma store_block_named P n cs :
  n ≠ "" → cs ≠ [] → store_block (Loader P (Some n) cs) = <[n:=cs]> P.
Proof.
  intros Hn Hcs. unfold store_block. simpl.
  by rewrite !bool_decide_eq_true_2.
Qed.

Lemma store_block_empty_name P cs : store_block (Loader P (Some "") cs) = P.
Proof. done. Qed.

Lemma store_block_tidy st : tidy (patterns st) → tidy (store_block st).
Proof.
  intros [Hempty Hcs]. unfold store_block.
  destruct (current_name st) as [n|]; [|done].
  destruct (bool_decide (n ≠ "")) eqn:Hn; [|done].
  destruct (bool_decide (coords st ≠ [])) eqn:Hc; [|done]. simpl.
  apply bool_decide_eq_true_1 in Hn, Hc. split.
  - by rewrite lookup_insert_ne.
  - intros n' cs. destruct (decide (n = n')) as [<-|Hne].
    + rewrite lookup_insert_eq. by intros [= <-].
    + rewrite lookup_insert_ne by done. apply Hcs.
Qed.

Lemma run_tidy st lines :
  tidy (patterns st) → tidy (patterns (foldl next_state st lines)).
Proof.
  revert st. induction lines as [|raw lines IH]; intros st Ht; [done|].
  simpl. apply IH. unfold next_state.
  destruct (is_header raw); [|done]. by apply store_block_tidy.
Qed.

Lemma load_lines_tidy lines m : load_lines lines = Ok m → tidy m.
Proof.
  rewrite load_lines_run. intros [= <-].
  apply store_block_tidy, run_tidy. split; [done|].
  simpl. intros n cs. by rewrite lookup_empty.
Qed.

Lemma same_but_dropped_store st1 st2 :
  same_but_dropped st1 st2 → store_block st1 = store_block st2.
Proof.
  destruct st1 as [P1 n1 c1], st2 as [P2 n2 c2].
  intros (HP & Hn & Hc). simpl in *. subst.
  destruct Hc as [->| ->]; done.
Qed.

Lemma same_but_dropped_run st1 st2 lines :
  same_but_dropped st1 st2 →
  same_but_dropped (foldl next_state st1 lines) (foldl next_state st2 lines).
Proof.
  revert st1 st2. induction lines as [|raw lines IH]; intros st1 st2 Hs; [done|].
  simpl. apply IH. unfold next_state. destruct (is_header raw).
  - rewrite (same_but_dropped_store _ _ Hs). split; [done|]. split; [done|]. by right.
  - destruct Hs as (HP & Hn & Hc). unfold add_coords, same_but_dropped. simpl.
    split; [done|]. split; [done|]. destruct Hc as [?| ->]; [by left|by right].
Qed.

(** ** The alive cells in scan order *)

Lemma elem_of_enumerate_from {A} (k : nat) (xs : list A) z x :
  (z, x) ∈ enumerate_from k xs ↔ ∃ n, z = Z.of_nat (k + n) ∧ xs !! n = Some x.
Proof.
  revert k. induction xs as [|y xs IH]; intros k; simpl.
  - split; [by intros ?%elem_of_nil|]. by intros (n & _ & ?).
  - rewrite elem_of_cons, IH. split.
    + intros [[= -> ->]|(n & -> & Hn)].
      * exists 0. split; [f_equal; lia|done].
      * exists (S n). split; [f_equal; lia|done].
    + intros ([|n] & -> & Hn); simpl in Hn.
      * left. injection Hn as ->. do 2 f_equal. lia.
      * right. exists n. split; [f_equal; lia|done].
Qed.

Lemma elem_of_row_cells i k row a b :
  (a, b) ∈ row_cells i k row ↔
  a = i ∧ ∃ n, b = Z.of_nat (k + n) ∧ row !! n = Some 1%Z.
Proof.
  unfold row_cells. rewrite list_elem_of_bind. split.
  - intros ([j c] & Hin & Hjc). apply elem_of_enumerate_from in Hjc as (n & -> & Hn).
    destruct (Z.eqb_spec c 1) as [->|]; [|by apply elem_of_nil in Hin].
    apply list_elem_of_singleton in Hin as [= -> ->]. split; [done|by exists n].
  - intros (-> & n & -> & Hn). exists (Z.of_nat (k + n), 1%Z). split.
    + simpl. by apply list_elem_of_singleton.
    + apply elem_of_enumerate_from. by exists n.
Qed.

Lemma elem_of_cells_from k g a b :
  (a, b) ∈ cells_from k g ↔
  ∃ n m row, a = Z.of_nat (k + n) ∧ b = Z.of_nat m ∧
             g !! n = Some row ∧ row !! m = Some 1%Z.
Proof.
  unfold cells_from. rewrite list_elem_of_bind. split.
  - intros ([i row] & Hin & Hrow).
    apply elem_of_enumerate_from in Hrow as (n & -> & Hn).
    apply elem_of_row_cells in Hin as (-> & m & -> & Hm).
    by exists n, m, row.
  - intros (n & m & row & -> & -> & Hn & Hm). exists (Z.of_nat (k + n), row). split.
    + apply elem_of_row_cells. split; [done|]. by exists m.
    + apply elem_of_enumerate_from. by exists n.
Qed.

Lemma alive_cells_from g : alive_cells g = cells_from 0 g.
Proof. done. Qed.

Lemma elem_of_alive_cells g i j : (i, j) ∈ alive_cells g ↔ alive g i j.
Proof.
  rewrite alive_cells_from, elem_of_cells_from. unfold alive, cell_at. split.
  - intros (n & m & row & -> & -> & Hn & Hm). simpl.
    destruct (Z.ltb_spec (Z.of_nat n) 0); [lia|].
    destruct (Z.ltb_spec (Z.of_nat m) 0); [lia|].
    simpl. rewrite !Nat2Z.id, Hn. simpl. done.
  - destruct (Z.ltb_spec i 0); [done|]. destruct (Z.ltb_spec j 0); [done|]. simpl.
    destruct (g !! Z.to_nat i) as [row|] eqn:Hrow; [|done]. simpl. intros Hj.
    exists (Z.to_nat i), (Z.to_nat j), row. repeat split; [lia|lia|done|done].
Qed.

Lemma alive_cells_nonneg g :
  Forall (λ p, 0 ≤ p.1 ∧ 0 ≤ p.2)%Z (alive_cells g).
Proof.
  apply Forall_forall. intros [a b] Hin. rewrite alive_cells_from in Hin.
  apply elem_of_cells_from in Hin as (n & m & row & -> & -> & _). simpl. lia.
Qed.

Lemma row_cells_cons i k c row :
  row_cells i k (c :: row)
  = (if (c =? 1)%Z then [(i, Z.of_nat k)] else []) ++ row_cells i (S k) row.
Proof. done. Qed.

Lemma cells_from_cons k row g :
  cells_from k (row :: g) = row_cells (Z.of_nat k) 0 row ++ cells_from (S k) g.
Proof. done. Qed.

Lemma row_cells_sorted i k row : StronglySorted scan_lt (row_cells i k row).
Proof.
  revert k. induction row as [|c row IH]; intros k; [constructor|].
  rewrite row_cells_cons.
  apply StronglySorted_app_2; [| |apply IH].
  - intros [a b] [a' b'] Hin Hin'. apply elem_of_row_cells in Hin' as (-> & n & -> & _).
    destruct (c =? 1)%Z; [|by apply elem_of_nil in Hin].
    apply list_elem_of_singleton in Hin as [= -> ->]. right. simpl. lia.
  - destruct (c =? 1)%Z; repeat constructor.
Qed.

Lemma cells_from_sorted k g : StronglySorted scan_lt (cells_from k g).
Proof.
  revert k. induction g as [|row g IH]; intros k; [constructor|].
  rewrite cells_from_cons.
  apply StronglySorted_app_2; [|apply row_cells_sorted|apply IH].
  intros [a b] [a' b'] Hin Hin'.
  apply elem_of_row_cells in Hin as (-> & _).
  apply elem_of_cells_from in Hin' as (n & m & row' & -> & _). left. simpl. lia.
Qed.

(** ** Writing a pattern file *)

Lemma unlines_cons l ls : unlines (l :: ls) = l +:+ unlines ls.
Proof. done. Qed.

Lemma unlines_app l1 l2 : unlines (l1 ++ l2) = unlines l1 +:+ unlines l2.
Proof.
  induction l1 as [|l l1 IH]; [done|]. simpl. by rewrite IH, sapp_assoc.
Qed.

Lemma coord_line_str p : coord_line p = coord_str p +:+ nl.
Proof. unfold coord_line, coord_str. by rewrite !sapp_assoc. Qed.

Lemma save_row (i : Z) k row f :
  fold_res (enumerate_from k (VInt <$> row)) f (λ '(j, cell) f,
    if val_eqb cell 1
    then Ok (f +:+ (py_str i +:+ "," +:+ py_str j +:+ nl))
    else Ok f)
  = Ok (f +:+ unlines (coord_line <$> row_cells i k row)).
Proof.
  revert k f. induction row as [|c row IH]; intros k f.
  - simpl. by rewrite sapp_nil_r.
  - rewrite row_cells_cons, fmap_app, unlines_app. simpl.
    destruct (c =? 1)%Z; simpl; rewrite IH.
    + by rewrite sapp_nil_r, sapp_assoc.
    + done.
Qed.

Lemma save_rows h k rows g f :
  Forall2 (λ r row, h !! r = Some (VInt <$> row)) rows g →
  fold_res (enumerate_from k (VRef <$> rows)) f (λ '(i, row) f,
    cells ← py_iter h row;
    fold_res (enumerate cells) f (λ '(j, cell) f,
      if val_eqb cell 1
      then Ok (f +:+ (py_str i +:+ "," +:+ py_str j +:+ nl))
      else Ok f))
  = Ok (f +:+ unlines (coord_line <$> cells_from k g)).
Proof.
  intros Hrows. revert k f.
  induction Hrows as [|r row rows g Hr _ IH]; intros k f.
  - simpl. by rewrite sapp_nil_r.
  - rewrite cells_from_cons, fmap_app, unlines_app. simpl. rewrite Hr. simpl.
    unfold enumerate. rewrite save_row. simpl. by rewrite IH, sapp_assoc.
Qed.

Lemma save_pattern_spec h b g filename fs :
  is_board h b g →
  save_pattern b filename h fs = Ok (<[filename:=encode "Saved" g]> fs).
Proof.
  intros (l & rows & -> & Hl & Hrows). unfold save_pattern. simpl. rewrite Hl.
  simpl. unfold enumerate. by rewrite (save_rows _ _ _ _ _ Hrows).
Qed.

(** ** Reading back what was written *)

Lemma file_lines_line l t :
  all_chars not_eol l = true →
  file_lines (l +:+ String newline t) = (l +:+ nl) :: file_lines t.
Proof.
  induction l as [|c l IH]; [done|]. rewrite !sapp_cons. simpl.
  intros [[Hn Hc]%andb_prop Hl]%andb_prop.
  apply bool_decide_eq_true_1 in Hn, Hc.
  rewrite !decide_False by done. by rewrite (IH Hl).
Qed.

Lemma coord_str_chars p :
  (0 ≤ p.1)%Z → (0 ≤ p.2)%Z →
  all_chars coord_char (coord_str p) = true ∧
  ∃ d r, coord_str p = String d r ∧ is_digit d = true.
Proof.
  intros H1 H2. unfold coord_str, py_str.
  destruct (Z.ltb_spec p.1 0); [lia|]. destruct (Z.ltb_spec p.2 0); [lia|].
  destruct (str_nonneg_digits _ H1) as (Ha1 & d & r & E & Hd).
  destruct (str_nonneg_digits _ H2) as (Ha2 & _).
  split.
  - rewrite !all_chars_app. 
    rewrite (all_chars_impl is_digit coord_char _ (λ c Hc, orb_true_intro _ _ (or_introl Hc)) Ha1).
    rewrite (all_chars_impl is_digit coord_char _ (λ c Hc, orb_true_intro _ _ (or_introl Hc)) Ha2).
    done.
  - exists d, (r +:+ "," +:+ str_nonneg p.2). by rewrite E.
Qed.

Lemma file_lines_coords ps :
  Forall (λ p, 0 ≤ p.1 ∧ 0 ≤ p.2)%Z ps →
  file_lines (unlines (coord_line <$> ps)) = coord_line <$> ps.
Proof.
  induction 1 as [|p ps [H1 H2] _ IH]; [done|].
  rewrite fmap_cons, unlines_cons, coord_line_str, sapp_assoc.
  unfold nl at 1. rewrite sapp_cons, sapp_nil_l.
  rewrite file_lines_line, IH; [done|].
  eapply all_chars_impl; [|apply coord_str_chars; done].
  intros c Hc. destruct (coord_char_facts c Hc) as (_ & Hn & Hr).
  unfold not_eol. by rewrite !bool_decide_eq_true_2.
Qed.

Lemma lstrip_head c r : is_space c = false → lstrip (String c r) = String c r.
Proof. intros Hc. simpl. by rewrite Hc. Qed.

Lemma rstrip_line s :
  all_chars (λ c, negb (is_space c)) s = true → rstrip (s +:+ nl) = s.
Proof.
  induction s as [|c s IH]; [done|]. rewrite sapp_cons. simpl.
  intros [Hc Hs]%andb_prop. rewrite (IH Hs).
  apply negb_true_iff in Hc. rewrite Hc. by destruct s.
Qed.

Lemma split_no_sep sep s :
  all_chars (λ c, bool_decide (c ≠ sep)) s = true → split sep s = [s].
Proof.
  induction s as [|c s IH]; [done|]. simpl.
  intros [Hc Hs]%andb_prop. apply bool_decide_eq_true_1 in Hc.
  by rewrite decide_False, (IH Hs).
Qed.

Lemma split_at_sep sep s t :
  all_chars (λ c, bool_decide (c ≠ sep)) s = true →
  split sep (s +:+ String sep t) = s :: split sep t.
Proof.
  induction s as [|c s IH].
  - intros _. rewrite sapp_nil_l. simpl. by rewrite decide_True.
  - rewrite sapp_cons. simpl. intros [Hc Hs]%andb_prop.
    apply bool_decide_eq_true_1 in Hc. by rewrite decide_False, (IH Hs).
Qed.

Lemma digits_no_comma s :
  all_chars is_digit s = true →
  all_chars (λ c, bool_decide (c ≠ ","%char)) s = true.
Proof.
  apply all_chars_impl. intros c Hc. apply bool_decide_eq_true_2.
  by destruct (digit_facts c Hc) as (_ & _ & _ & _ & ? & _).
Qed.

Section coord_line.
Variable p : Z * Z.
Hypothesis H1 : (0 ≤ p.1)%Z.
Hypothesis H2 : (0 ≤ p.2)%Z.

Lemma strip_coord_line : strip (coord_line p) = coord_str p.
Proof.
  rewrite coord_line_str. unfold strip.
  destruct (coord_str_chars p H1 H2) as (Hall & d & r & E & Hd).
  destruct (digit_facts d Hd) as (Hsp & _).
  rewrite E, sapp_cons, (lstrip_head _ _ Hsp), <- sapp_cons, <- E.
  apply rstrip_line. eapply all_chars_impl; [|exact Hall].
  intros c Hc. by destruct (coord_char_facts c Hc) as (-> & _).
Qed.

Lemma coord_line_not_header : is_header (coord_line p) = false.
Proof.
  unfold is_header. rewrite strip_coord_line.
  destruct (coord_str_chars p H1 H2) as (_ & d & r & -> & Hd).
  destruct (digit_facts d Hd) as (_ & _ & _ & _ & _ & _ & _ & _ & Hhash).
  unfold startswith.
  change (String.prefix "# Pattern:" (String d r))
    with (if ascii_dec "#" d then String.prefix " Pattern:" r else false).
  by destruct (ascii_dec "#" d) as [<-|].
Qed.

Lemma parse_coord_str : parse_pair (coord_str p) = Ok p.
Proof.
  unfold parse_pair, coord_str, py_str.
  destruct (Z.ltb_spec p.1 0); [lia|]. destruct (Z.ltb_spec p.2 0); [lia|].
  destruct (str_nonneg_digits _ H1) as (Ha1 & _).
  destruct (str_nonneg_digits _ H2) as (Ha2 & _).
  change ("," +:+ str_nonneg p.2) with (String "," (str_nonneg p.2)).
  rewrite (split_at_sep _ _ _ (digits_no_comma _ Ha1)).
  rewrite (split_no_sep _ _ (digits_no_comma _ Ha2)).
  rewrite !py_int_str_nonneg by done. simpl. by destruct p.
Qed.

Lemma line_coords_coord_line : line_coords (coord_line p) = [p].
Proof. unfold line_coords. by rewrite strip_coord_line, parse_coord_str. Qed.
End coord_line.

Lemma written_lines_body ps :
  Forall (λ p, 0 ≤ p.1 ∧ 0 ≤ p.2)%Z ps →
  Forall (λ raw, is_header raw = false) (coord_line <$> ps) ∧
  body_coords (coord_line <$> ps) = ps.
Proof.
  induction 1 as [|p ps [H1 H2] _ [IH1 IH2]]; [by split|]. split.
  - rewrite fmap_cons. constructor; [by apply coord_line_not_header|done].
  - unfold body_coords in *. rewrite fmap_cons, bind_cons, IH2.
    by rewrite line_coords_coord_line.
Qed.

(** Loading the text [save_pattern] writes for a grid. *)
Lemma load_encoded g filename (fs : gmap string string) :
  load_patterns filename (<[filename:=encode "Saved" g]> fs)
  = Ok (store_block (Loader ∅ (Some "Saved") (alive_cells g))).
Proof.
  unfold load_patterns. rewrite lookup_insert_eq. unfold encode.
  pose proof (alive_cells_nonneg g) as Hnn.
  destruct (written_lines_body _ Hnn) as [Hbody Hcoords].
  change (("# Pattern: " +:+ "Saved" +:+ nl) +:+ unlines (coord_line <$> alive_cells g))
    with ("# Pattern: Saved" +:+ String newline (unlines (coord_line <$> alive_cells g))).
  rewrite file_lines_line by done. rewrite (file_lines_coords _ Hnn).
  rewrite load_lines_run. simpl.
  rewrite (run_body _ _ Hbody), Hcoords. done.
Qed.

(** * The claims *)

Lemma small_grid_binary : binary small_grid.
Proof.
  unfold binary, small_grid.
  repeat first [apply Forall_cons_2 | apply Forall_nil_2]; lia.
Qed.

(** C1. On a grid of dead (0) and alive (1) cells with positive dimensions
    [H]x[W], [next_gen] returns a board in which the cell at [(i, j)] is alive
    exactly when the cell was alive with 2 or 3 alive neighbours, or dead with
    exactly 3, the neighbours being the 8 positions
    [((i+dx) mod H, (j+dy) mod W)] of the torus, for every cell alike, edges
    and corners included. *)
Theorem next_gen_life_rule h b g H W :
  is_board h b g → dims g H W → binary g → 0 < H → 0 < W →
  ∃ b' h' g',
    next_gen b h = Ok (b', h') ∧ is_board h' b' g' ∧
    ∀ i j : Z, (0 ≤ i < Z.of_nat H)%Z → (0 ≤ j < Z.of_nat W)%Z →
      alive g' i j ↔
        (alive g i j ∧ (neighbor_count g H W i j = 2%Z ∨
                        neighbor_count g H W i j = 3%Z))
        ∨ (dead g i j ∧ neighbor_count g H W i j = 3%Z).
Proof.
  intros Hb Hd Hbin HH HW.
  destruct (next_gen_spec _ _ _ _ _ Hb Hd HH HW) as (l & rows & h' & E & Hown).
  exists (VRef l), h', (tabulate (next_cell g H W) H W).
  split; [done|]. split; [by eapply owns_board_is_board|].
  intros i j Hi Hj. unfold alive, dead.
  rewrite cell_at_tabulate, decide_True by done.
  rewrite (cell_at_in_range _ _ _ _ _ Hd Hi Hj).
  unfold next_cell. rewrite !Z2Nat.id by lia.
  rewrite (neighbor_total_count _ _ _ _ _ Hbin).
  generalize (neighbor_count g H W i j) (cell g i j). intros n c.
  assert (∀ x y : Z, Some x = Some y ↔ x = y) as HS
    by (intros; split; [by intros [=]|by intros ->]).
  rewrite !HS. unfold life_rule.
  destruct (Z.eqb_spec c 1), (Z.eqb_spec c 0), (Z.eqb_spec n 2), (Z.eqb_spec n 3);
    simpl; lia.
Qed.

Lemma next_gen_life_rule_witness :
  ∃ b' h' g',
    next_gen (VRef 3) small_heap = Ok (b', h') ∧ is_board h' b' g' ∧
    ∀ i j : Z, (0 ≤ i < 3)%Z → (0 ≤ j < 4)%Z →
      alive g' i j ↔
        (alive small_grid i j ∧ (neighbor_count small_grid 3 4 i j = 2%Z ∨
                                 neighbor_count small_grid 3 4 i j = 3%Z))
        ∨ (dead small_grid i j ∧ neighbor_count small_grid 3 4 i j = 3%Z).
Proof.
  apply (next_gen_life_rule small_heap (VRef 3) small_grid 3 4).
  - exists 3, [0; 1; 2]. split; [reflexivity|]. split; [reflexivity|].
    repeat constructor.
  - split; [reflexivity|]. repeat constructor.
  - apply small_grid_binary.
  - lia.
  - lia.
Defined.

(** C3. For a grid with positive dimensions, the board [next_gen] returns has
    the height and the width of its argument. *)
Theorem next_gen_dims h b g H W :
  is_board h b g → dims g H W → 0 < H → 0 < W →
  ∃ b' h' g',
    next_gen b h = Ok (b', h') ∧ is_board h' b' g' ∧ dims g' H W.
Proof.
  intros Hb Hd HH HW.
  destruct (next_gen_spec _ _ _ _ _ Hb Hd HH HW) as (l & rows & h' & E & Hown).
  exists (VRef l), h', (tabulate (next_cell g H W) H W).
  split; [done|]. split; [by eapply owns_board_is_board|apply tabulate_dims].
Qed.

Lemma next_gen_dims_witness :
  ∃ b' h' g',
    next_gen (VRef 3) small_heap = Ok (b', h') ∧ is_board h' b' g' ∧
    dims g' 3 4.
Proof.
  apply (next_gen_dims small_heap (VRef 3) small_grid 3 4).
  - exists 3, [0; 1; 2]. split; [reflexivity|]. split; [reflexivity|].
    repeat constructor.
  - split; [reflexivity|]. repeat constructor.
  - lia.
  - lia.
Defined.

(** C2. [next_gen] does not change any object of the store it is run in, so
    its argument holds the same grid afterwards, and the board it returns is
    a new object; the cell it writes at [(i, j)] is decided from the cell and
    the neighbour count read in the store as it was on entry, never from the
    board under construction. *)
Theorem next_gen_pure h b g H W :
  is_board h b g → dims g H W → 0 < H → 0 < W →
  ∃ l' h' g',
    next_gen b h = Ok (VRef l', h') ∧ h !! l' = None ∧
    h ⊆ h' ∧ is_board h' b g ∧ is_board h' (VRef l') g' ∧
    ∀ i j, i < H → j < W →
      ∃ n, count_neighbors b (Z.of_nat i) (Z.of_nat j) h = Ok (n, h) ∧
           cell_at g' (Z.of_nat i) (Z.of_nat j)
           = Some (life_rule (cell g (Z.of_nat i) (Z.of_nat j)) n).
Proof.
  intros Hb Hd HH HW.
  destruct (next_gen_spec _ _ _ _ _ Hb Hd HH HW) as (l & rows & h' & E & Hown).
  exists l, h', (tabulate (next_cell g H W) H W).
  split; [done|]. split; [apply Hown|]. split; [apply Hown|].
  split; [eapply is_board_mono; [apply Hown|done]|].
  split; [by eapply owns_board_is_board|].
  intros i j Hi Hj. exists (neighbor_total g H W (Z.of_nat i) (Z.of_nat j)).
  split; [by apply count_neighbors_spec|].
  rewrite cell_at_tabulate, decide_True by lia. by rewrite !Nat2Z.id.
Qed.

Lemma next_gen_pure_witness :
  ∃ l' h' g',
    next_gen (VRef 3) small_heap = Ok (VRef l', h') ∧ small_heap !! l' = None ∧
    small_heap ⊆ h' ∧ is_board h' (VRef 3) small_grid ∧
    is_board h' (VRef l') g' ∧
    ∀ i j, i < 3 → j < 4 →
      ∃ n, count_neighbors (VRef 3) (Z.of_nat i) (Z.of_nat j) small_heap
           = Ok (n, small_heap) ∧
           cell_at g' (Z.of_nat i) (Z.of_nat j)
           = Some (life_rule (cell small_grid (Z.of_nat i) (Z.of_nat j)) n).
Proof.
  apply (next_gen_pure small_heap (VRef 3) small_grid 3 4).
  - exists 3, [0; 1; 2]. split; [reflexivity|]. split; [reflexivity|].
    repeat constructor.
  - split; [reflexivity|]. repeat constructor.
  - lia.
  - lia.
Defined.

(** C5, as the code has it. [make_board] never fails: for every width and
    height, positive or not, it returns a board of [max height 0] rows of
    [max width 0] dead cells each, and leaves the objects of the store as
    they were.  For positive dimensions this is the [height]x[width] grid of
    dead cells. *)
Theorem make_board_total (width height : Z) h :
  ∃ b h',
    make_board width height h = Ok (b, h') ∧ h ⊆ h' ∧
    is_board h' b (replicate (Z.to_nat height) (replicate (Z.to_nat width) 0%Z)).
Proof.
  rewrite make_board_to_nat.
  destruct (make_board_spec (Z.to_nat width) (Z.to_nat height) h)
    as (l & rows & h' & E & Hown).
  exists (VRef l), h'. split; [done|]. split; [apply Hown|].
  rewrite <- tabulate_const. by eapply owns_board_is_board.
Qed.

(** C5, counterexample: with a width or a height that is not positive
    [make_board] returns a board, it raises nothing. *)
Lemma make_board_nonpositive :
  make_board 0 0 ∅ = Ok (VRef 0, {[0 := []]}) ∧
  make_board (-1) 2 ∅ = Ok (VRef 2, {[0 := []; 1 := []; 2 := [VRef 0; VRef 1]]}).
Proof. split; reflexivity. Qed.

(** C6. Applying a coordinate list to a board of positive dimensions [H]x[W]
    returns an [H]x[W] board of dead and alive cells in which [(i, j)] is
    alive exactly when it occurs in the list and lies within the bounds;
    coordinates out of bounds raise nothing and leave no alive cell, in
    particular [(-1, 0)] and [(H, 0)]. *)
Theorem apply_pattern_in_bounds h b g H W (coords : list (Z * Z)) :
  is_board h b g → dims g H W → 0 < H → 0 < W →
  ∃ b' h' g',
    apply_pattern b coords h = Ok (b', h') ∧
    is_board h' b' g' ∧ dims g' H W ∧ binary g' ∧
    (∀ i j : Z, alive g' i j ↔
       (i, j) ∈ coords ∧ (0 ≤ i < Z.of_nat H)%Z ∧ (0 ≤ j < Z.of_nat W)%Z) ∧
    ¬ alive g' (-1) 0 ∧ ¬ alive g' (Z.of_nat H) 0.
Proof.
  intros Hb Hd HH HW.
  destruct (apply_pattern_spec _ _ _ _ _ coords Hb Hd HH HW)
    as (l & rows & h' & E & Hown).
  set (f := λ i j : nat,
         if decide ((Z.of_nat i, Z.of_nat j) ∈ coords) then 1%Z else 0%Z) in *.
  exists (VRef l), h', (tabulate f H W).
  assert (∀ i j : Z, alive (tabulate f H W) i j ↔
            (i, j) ∈ coords ∧ (0 ≤ i < Z.of_nat H)%Z ∧ (0 ≤ j < Z.of_nat W)%Z) as Halive.
  { intros i j. unfold alive. rewrite cell_at_tabulate.
    destruct (decide (_ ∧ _)) as [[Hi Hj]|Hout].
    - unfold f. rewrite !Z2Nat.id by lia.
      destruct (decide ((i, j) ∈ coords)); (split; [|tauto]); [tauto|done].
    - split; [done|tauto]. }
  split; [done|]. split; [by eapply owns_board_is_board|].
  split; [apply tabulate_dims|].
  split; [apply tabulate_binary; intros i j; unfold f; case_decide; auto|].
  split; [done|]. rewrite !Halive. lia.
Qed.

Lemma apply_pattern_in_bounds_witness :
  ∃ b' h' g',
    apply_pattern (VRef 3) [(-1, 0); (3, 0); (1, 2)]%Z small_heap = Ok (b', h') ∧
    is_board h' b' g' ∧ dims g' 3 4 ∧ binary g' ∧
    (∀ i j : Z, alive g' i j ↔
       (i, j) ∈ [(-1, 0); (3, 0); (1, 2)]%Z ∧ (0 ≤ i < 3)%Z ∧ (0 ≤ j < 4)%Z) ∧
    ¬ alive g' (-1) 0 ∧ ¬ alive g' 3 0.
Proof.
  apply (apply_pattern_in_bounds small_heap (VRef 3) small_grid 3 4).
  - exists 3, [0; 1; 2]. split; [reflexivity|]. split; [reflexivity|].
    repeat constructor.
  - split; [reflexivity|]. repeat constructor.
  - lia.
  - lia.
Defined.

(** C7. A line that is neither blank nor a header and that does not parse
    as two comma-separated integers is skipped: reading it raises nothing
    and leaves the loader as it was, so the file gives what it gives
    without that line.  A header, the line [1,2] and the line [abc] give one
    pattern with the one coordinate [(1, 2)]. *)
Theorem load_skips_malformed (before after : list string) (raw : string) e :
  strip raw ≠ "" → is_header raw = false → parse_pair (strip raw) = Raise e →
  (∀ st, load_line st raw = Ok st) ∧
  load_lines (before ++ raw :: after) = load_lines (before ++ after) ∧
  load_patterns "patterns.txt" {["patterns.txt" := malformed_text]}
  = Ok {["P" := [(1, 2)%Z]]}.
Proof.
  intros Hblank Hh He.
  assert (∀ st, next_state st raw = st) as Hskip.
  { intros st. unfold next_state, line_coords. rewrite Hh, He.
    apply add_coords_nil. }
  split; [|split].
  - intros st. by rewrite load_line_next, Hskip.
  - rewrite !load_lines_run, !foldl_app. simpl. by rewrite Hskip.
  - reflexivity.
Qed.

Lemma load_skips_malformed_witness :
  (∀ st, load_line st "abc" = Ok st) ∧
  load_lines (["# Pattern: P"; "1,2"] ++ "abc" :: ["3,4"])
  = load_lines (["# Pattern: P"; "1,2"] ++ ["3,4"]) ∧
  load_patterns "patterns.txt" {["patterns.txt" := malformed_text]}
  = Ok {["P" := [(1, 2)%Z]]}.
Proof.
  apply (load_skips_malformed ["# Pattern: P"; "1,2"] ["3,4"] "abc" ValueError).
  - vm_compute. discriminate.
  - reflexivity.
  - reflexivity.
Defined.

(** C8, as the code has it.  A header met while the block in progress has
    no coordinate discards that block and starts a block under the new name;
    a block without coordinates is never added, so no name of the result has
    an empty coordinate list; and at the end of the input the block in
    progress is added when it has at least one coordinate and its name is not
    empty. *)
Theorem load_block_structure (before body0 rest body1 : list string)
    (hdr hdr' : string) (name : string) :
  header_of hdr name →
  Forall (λ raw, is_header raw = false) body0 → body_coords body0 = [] →
  is_header hdr' = true →
  Forall (λ raw, is_header raw = false) body1 → body_coords body1 ≠ [] →
  name ≠ "" →
  (∀ P old, load_line (Loader P old []) hdr = Ok (Loader P (Some name) [])) ∧
  load_lines (before ++ hdr :: body0 ++ hdr' :: rest)
  = load_lines (before ++ hdr' :: rest) ∧
  load_lines (before ++ hdr :: body0) = load_lines before ∧
  (∀ lines m n cs, load_lines lines = Ok m → m !! n = Some cs → cs ≠ []) ∧
  ∃ m, load_lines before = Ok m ∧
       load_lines (before ++ hdr :: body1) = Ok (<[name:=body_coords body1]> m).
Proof.
  intros Hhdr Hb0 Hc0 Hhdr' Hb1 Hc1 Hname.
  split; [|split; [|split; [|split]]].
  - intros P old.
    by rewrite load_line_next, (next_state_header _ _ _ Hhdr), store_block_no_coords.
  - rewrite !load_lines_run, !foldl_app. simpl. rewrite foldl_app. simpl.
    rewrite (next_state_header _ _ _ Hhdr), (run_body _ _ Hb0), Hc0, add_coords_nil.
    rewrite !(next_state_header _ hdr' _ (is_header_header_of _ Hhdr')).
    by rewrite store_block_no_coords.
  - rewrite !load_lines_run, !foldl_app. simpl.
    rewrite (next_state_header _ _ _ Hhdr), (run_body _ _ Hb0), Hc0, add_coords_nil.
    by rewrite store_block_no_coords.
  - intros lines m n cs Hm. by apply (load_lines_tidy _ _ Hm).
  - eexists. split; [apply load_lines_run|].
    rewrite load_lines_run, foldl_app. simpl.
    rewrite (next_state_header _ _ _ Hhdr), (run_body _ _ Hb1).
    unfold add_coords. simpl. by rewrite store_block_named.
Qed.

Lemma load_block_structure_witness :
  (∀ P old, load_line (Loader P old []) "# Pattern: A" = Ok (Loader P (Some "A") [])) ∧
  load_lines (["# Pattern: Z"; "7,7"] ++ "# Pattern: A" :: ["abc"; ""] ++ "# Pattern: B" :: ["5,6"])
  = load_lines (["# Pattern: Z"; "7,7"] ++ "# Pattern: B" :: ["5,6"]) ∧
  load_lines (["# Pattern: Z"; "7,7"] ++ "# Pattern: A" :: ["abc"; ""])
  = load_lines ["# Pattern: Z"; "7,7"] ∧
  (∀ lines m n cs, load_lines lines = Ok m → m !! n = Some cs → cs ≠ []) ∧
  ∃ m, load_lines ["# Pattern: Z"; "7,7"] = Ok m ∧
       load_lines (["# Pattern: Z"; "7,7"] ++ "# Pattern: A" :: ["1,2"; "x"; "3,4"])
       = Ok (<[ "A" := body_coords ["1,2"; "x"; "3,4"] ]> m).
Proof.
  apply (load_block_structure ["# Pattern: Z"; "7,7"] ["abc"; ""] ["5,6"]
           ["1,2"; "x"; "3,4"] "# Pattern: A" "# Pattern: B" "A").
  - split; [reflexivity|]. exists " A". split; reflexivity.
  - repeat constructor.
  - reflexivity.
  - reflexivity.
  - repeat constructor.
  - vm_compute. discriminate.
  - discriminate.
Defined.

(** C8, counterexample: at the end of the input the block in progress has
    the coordinate [(1, 2)], but its name is empty and it is not added. *)
Lemma load_drops_last_block_without_name :
  header_of "# Pattern:" "" ∧
  body_coords ["1,2"] = [(1, 2)%Z] ∧
  load_lines ["# Pattern:"; "1,2"] = Ok ∅.
Proof.
  split; [|split; reflexivity].
  split; [reflexivity|]. exists "". split; reflexivity.
Qed.

(** C10. No text gives a pattern under the empty name: the result of
    [load_patterns] never has the empty string as a key, and the lines that
    follow a header with an empty name, up to the next header, change
    nothing in the result. *)
Theorem load_no_empty_name (before body rest : list string) (hdr : string) :
  header_of hdr "" →
  Forall (λ raw, is_header raw = false) body →
  (∀ filename fs, ∃ m, load_patterns filename fs = Ok m ∧ m !! "" = None) ∧
  load_lines (before ++ hdr :: body ++ rest) = load_lines (before ++ hdr :: rest).
Proof.
  intros Hhdr Hbody. split.
  - intros filename fs. unfold load_patterns.
    destruct (fs !! filename) as [text|]; [|by exists ∅].
    eexists. split; [apply load_lines_run|].
    by apply (load_lines_tidy (file_lines text)), load_lines_run.
  - rewrite !load_lines_run, !foldl_app. simpl. rewrite foldl_app.
    rewrite (next_state_header _ _ _ Hhdr), (run_body _ _ Hbody).
    f_equal. apply same_but_dropped_store, same_but_dropped_run.
    split; [done|]. split; [done|]. by left.
Qed.

Lemma load_no_empty_name_witness :
  (∀ filename fs, ∃ m, load_patterns filename fs = Ok m ∧ m !! "" = None) ∧
  load_lines (["# Pattern: Z"; "7,7"] ++ "# Pattern:" :: ["1,2"; "3,4"] ++ ["# Pattern: B"; "5,6"])
  = load_lines (["# Pattern: Z"; "7,7"] ++ "# Pattern:" :: ["# Pattern: B"; "5,6"]).
Proof.
  apply (load_no_empty_name ["# Pattern: Z"; "7,7"] ["1,2"; "3,4"]
           ["# Pattern: B"; "5,6"] "# Pattern:").
  - split; [reflexivity|]. exists "". split; reflexivity.
  - repeat constructor.
Defined.

(** C9, as the code has it.  [save_pattern] takes a board and a file name,
    no pattern name: the text it writes is one header line that always names
    the pattern [Saved], then one line [row,col] per alive cell, the cells
    in scan order, rows from the top and each row from the left. *)
Theorem save_pattern_text h b g filename fs :
  is_board h b g →
  save_pattern b filename h fs
  = Ok (<[filename:=("# Pattern: Saved" +:+ nl)
                    +:+ unlines (coord_line <$> alive_cells g)]> fs) ∧
  (∀ i j, (i, j) ∈ alive_cells g ↔ alive g i j) ∧
  StronglySorted scan_lt (alive_cells g).
Proof.
  intros Hb. split; [|split].
  - by apply save_pattern_spec.
  - apply elem_of_alive_cells.
  - apply cells_from_sorted.
Qed.

Lemma save_pattern_text_witness :
  save_pattern (VRef 3) "saved.txt" small_heap ∅
  = Ok (<["saved.txt":=("# Pattern: Saved" +:+ nl)
                       +:+ unlines (coord_line <$> alive_cells small_grid)]> ∅) ∧
  (∀ i j, (i, j) ∈ alive_cells small_grid ↔ alive small_grid i j) ∧
  StronglySorted scan_lt (alive_cells small_grid).
Proof.
  apply (save_pattern_text small_heap (VRef 3) small_grid "saved.txt" ∅).
  exists 3, [0; 1; 2]. split; [reflexivity|]. split; [reflexivity|].
  repeat constructor.
Defined.

(** C9, counterexample: asked to save a grid as the pattern [X], the
    text written is not the encoding under the name [X]; its header names
    [Saved]. *)
Lemma save_pattern_ignores_name :
  ∃ fs', save_pattern (VRef 3) "saved.txt" small_heap ∅ = Ok fs' ∧
         fs' !! "saved.txt" ≠ Some (encode "X" small_grid) ∧
         fs' !! "saved.txt" = Some (encode "Saved" small_grid).
Proof.
  eexists. split; [reflexivity|]. split; [|reflexivity].
  vm_compute. discriminate.
Qed.

(** C4, as the code has it.  Saving a grid and loading the file back gives,
    when the grid has an alive cell, exactly one pattern, named [Saved],
    whose coordinate list is the alive cells of the grid in scan order, so
    its set of pairs is the set of alive cells; when the grid has no alive
    cell it gives no pattern at all. *)
Theorem save_load_round_trip h b g filename fs :
  is_board h b g →
  ∃ fs',
    save_pattern b filename h fs = Ok fs' ∧
    load_patterns filename fs'
    = Ok (if decide (alive_cells g = []) then ∅
          else {["Saved" := alive_cells g]}) ∧
    (∀ i j, (i, j) ∈ alive_cells g ↔ alive g i j).
Proof.
  intros Hb. eexists. split; [by apply save_pattern_spec|].
  split; [|apply elem_of_alive_cells].
  rewrite load_encoded. f_equal. case_decide as Hcells.
  - rewrite Hcells. apply store_block_no_coords.
  - by rewrite store_block_named.
Qed.

Lemma save_load_round_trip_witness :
  ∃ fs',
    save_pattern (VRef 3) "saved.txt" small_heap ∅ = Ok fs' ∧
    load_patterns "saved.txt" fs'
    = Ok (if decide (alive_cells small_grid = []) then ∅
          else {["Saved" := alive_cells small_grid]}) ∧
    (∀ i j, (i, j) ∈ alive_cells small_grid ↔ alive small_grid i j).
Proof.
  apply (save_load_round_trip small_heap (VRef 3) small_grid "saved.txt" ∅).
  exists 3, [0; 1; 2]. split; [reflexivity|]. split; [reflexivity|].
  repeat constructor.
Defined.

(** C4, counterexample: for the grid of one dead cell, loading what was
    saved gives no pattern, hence no coordinate list. *)
Lemma round_trip_of_dead_grid :
  is_board dead_heap (VRef 1) [[0%Z]] ∧
  ∃ fs', save_pattern (VRef 1) "saved.txt" dead_heap ∅ = Ok fs' ∧
         load_patterns "saved.txt" fs' = Ok ∅.
Proof.
  split.
  - exists 1, [0]. split; [reflexivity|]. split; [reflexivity|]. repeat constructor.
  - eexists. split; reflexivity.
Qed.

(** * Further properties of the model *)

(** ** Boards *)

(** X1. The rows of a board made by [make_board] are separate objects:
    setting one cell of the new board changes that cell and no other. *)
Theorem make_board_rows_independent (W H i j : nat) h :
  i < H → j < W →
  ∃ b h',
    (b ← make_board (Z.of_nat W) (Z.of_nat H);
     (row ← getitem b (Z.of_nat i); setitem row (Z.of_nat j) (VInt 1));;
     mret b) h = Ok (b, h') ∧
    h ⊆ h' ∧
    is_board h' b
      (tabulate (λ i' j', if decide (i' = i ∧ j' = j) then 1%Z else 0%Z) H W).
Proof.
  intros Hi Hj.
  destruct (make_board_spec W H h) as (l & rows & h1 & E & Hown).
  destruct (owns_board_set _ _ _ _ _ _ _ _ _ Hown Hi Hj) as (h2 & Eset & Hset).
  exists (VRef l), h2. split; [|split].
  - rewrite (bind_Ok _ _ _ _ _ E). by rewrite (bind_Ok _ _ _ _ _ Eset).
  - apply Hset.
  - by eapply owns_board_is_board.
Qed.

Lemma make_board_rows_independent_witness :
  ∃ b h',
    (b ← make_board 4 3;
     (row ← getitem b 1; setitem row 2 (VInt 1));;
     mret b) small_heap = Ok (b, h') ∧
    small_heap ⊆ h' ∧
    is_board h' b
      (tabulate (λ i' j', if decide (i' = 1 ∧ j' = 2) then 1%Z else 0%Z) 3 4).
Proof.
  apply (make_board_rows_independent 4 3 1 2 small_heap); lia.
Defined.

Lemma torus_neighbors_length H W i j : length (torus_neighbors H W i j) = 8.
Proof. reflexivity. Qed.

(** X2. On a board of dead and alive cells [count_neighbors] returns a
    count between 0 and 8, for any integers [x] and [y], and leaves the
    store as it was. *)
Theorem count_neighbors_range h b g H W (x y : Z) :
  is_board h b g → dims g H W → binary g → 0 < H → 0 < W →
  ∃ n, count_neighbors b x y h = Ok (n, h) ∧ (0 ≤ n ≤ 8)%Z.
Proof.
  intros Hb Hd Hbin HH HW. exists (neighbor_count g H W x y). split.
  - rewrite <- (neighbor_total_count _ _ _ _ _ Hbin). by apply count_neighbors_spec.
  - unfold neighbor_count.
    pose proof (length_filter (λ p, is_alive g p = true)
                  (torus_neighbors (Z.of_nat H) (Z.of_nat W) x y)) as Hle.
    rewrite torus_neighbors_length in Hle. lia.
Qed.

Lemma count_neighbors_range_witness :
  ∃ n, count_neighbors (VRef 3) (-1) 7 small_heap = Ok (n, small_heap) ∧
       (0 ≤ n ≤ 8)%Z.
Proof.
  apply (count_neighbors_range small_heap (VRef 3) small_grid 3 4).
  - exists 3, [0; 1; 2]. split; [reflexivity|]. split; [reflexivity|].
    repeat constructor.
  - split; [reflexivity|]. repeat constructor.
  - apply small_grid_binary.
  - lia.
  - lia.
Defined.

Lemma torus_neighbors_shift (H W x y k k' : Z) :
  H ≠ 0%Z → W ≠ 0%Z →
  torus_neighbors H W (x + k * H) (y + k' * W) = torus_neighbors H W x y.
Proof.
  intros HH HW.
  assert (∀ d, ((x + k * H + d) mod H = (x + d) mod H)%Z) as Hx.
  { intros d. replace (x + k * H + d)%Z with (x + d + k * H)%Z by lia.
    by apply Z.mod_add. }
  assert (∀ d, ((y + k' * W + d) mod W = (y + d) mod W)%Z) as Hy.
  { intros d. replace (y + k' * W + d)%Z with (y + d + k' * W)%Z by lia.
    by apply Z.mod_add. }
  unfold torus_neighbors. cbn. by rewrite !Hx, !Hy.
Qed.

(** X3. The board is a torus for [count_neighbors]: moving the position by
    whole multiples of the height and of the width, in either direction,
    gives the same count. *)
Theorem count_neighbors_periodic h b g H W (x y k k' : Z) :
  is_board h b g → dims g H W → 0 < H → 0 < W →
  count_neighbors b (x + k * Z.of_nat H) (y + k' * Z.of_nat W) h
  = count_neighbors b x y h.
Proof.
  intros Hb Hd HH HW.
  rewrite !(count_neighbors_spec _ _ _ _ _ _ _ Hb Hd HH HW).
  unfold neighbor_total. by rewrite torus_neighbors_shift by lia.
Qed.

Lemma count_neighbors_periodic_witness :
  count_neighbors (VRef 3) (1 + -2 * 3) (2 + 5 * 4) small_heap
  = count_neighbors (VRef 3) 1 2 small_heap.
Proof.
  apply (count_neighbors_periodic small_heap (VRef 3) small_grid 3 4 1 2 (-2) 5).
  - exists 3, [0; 1; 2]. split; [reflexivity|]. split; [reflexivity|].
    repeat constructor.
  - split; [reflexivity|]. repeat constructor.
  - lia.
  - lia.
Defined.

Lemma life_rule_binary c n : life_rule c n = 0%Z ∨ life_rule c n = 1%Z.
Proof. unfold life_rule. repeat case_match; auto. Qed.

(** X4. Whatever integers the cells of the argument are, the board
    [next_gen] returns has only dead (0) and alive (1) cells, and a cell that
    was neither 0 nor 1 is dead in it. *)
Theorem next_gen_binary h b g H W :
  is_board h b g → dims g H W → 0 < H → 0 < W →
  ∃ b' h' g',
    next_gen b h = Ok (b', h') ∧ is_board h' b' g' ∧ binary g' ∧
    ∀ i j : Z, (0 ≤ i < Z.of_nat H)%Z → (0 ≤ j < Z.of_nat W)%Z →
      cell_at g i j ≠ Some 0%Z → cell_at g i j ≠ Some 1%Z → dead g' i j.
Proof.
  intros Hb Hd HH HW.
  destruct (next_gen_spec _ _ _ _ _ Hb Hd HH HW) as (l & rows & h' & E & Hown).
  exists (VRef l), h', (tabulate (next_cell g H W) H W).
  split; [done|]. split; [by eapply owns_board_is_board|]. split.
  - apply tabulate_binary. intros i j. apply life_rule_binary.
  - intros i j Hi Hj H0 H1. unfold dead.
    rewrite cell_at_tabulate, decide_True by done. f_equal.
    unfold next_cell. rewrite !Z2Nat.id by lia.
    rewrite (cell_at_in_range _ _ _ _ _ Hd Hi Hj) in H0, H1.
    unfold life_rule.
    destruct (Z.eqb_spec (cell g i j) 1) as [E1|_]; [by rewrite E1 in H1|].
    destruct (Z.eqb_spec (cell g i j) 0) as [E0|_]; [by rewrite E0 in H0|].
    done.
Qed.

Lemma next_gen_binary_witness :
  ∃ b' h' g',
    next_gen (VRef 3) small_heap = Ok (b', h') ∧ is_board h' b' g' ∧ binary g' ∧
    ∀ i j : Z, (0 ≤ i < 3)%Z → (0 ≤ j < 4)%Z →
      cell_at small_grid i j ≠ Some 0%Z → cell_at small_grid i j ≠ Some 1%Z →
      dead g' i j.
Proof.
  apply (next_gen_binary small_heap (VRef 3) small_grid 3 4).
  - exists 3, [0; 1; 2]. split; [reflexivity|]. split; [reflexivity|].
    repeat constructor.
  - split; [reflexivity|]. repeat constructor.
  - lia.
  - lia.
Defined.

Lemma blank_dims H W : dims (blank H W) H W.
Proof.
  unfold blank. rewrite <- tabulate_const. apply tabulate_dims.
Qed.

Lemma blank_cell H W i j : cell (blank H W) i j = 0%Z.
Proof.
  unfold cell, blank. rewrite <- tabulate_const, cell_at_tabulate.
  by case_decide.
Qed.

(** X5. A board with no alive cell stays so: [next_gen] of the all-dead
    [H]x[W] grid is the all-dead [H]x[W] grid. *)
Theorem next_gen_blank h b H W :
  is_board h b (blank H W) → 0 < H → 0 < W →
  ∃ b' h', next_gen b h = Ok (b', h') ∧ is_board h' b' (blank H W).
Proof.
  intros Hb HH HW.
  destruct (next_gen_spec _ _ _ _ _ Hb (blank_dims H W) HH HW)
    as (l & rows & h' & E & Hown).
  exists (VRef l), h'. split; [done|].
  unfold blank at 1. rewrite <- tabulate_const.
  eapply owns_board_is_board, owns_board_ext; [|exact Hown].
  intros i j _ _. unfold next_cell, neighbor_total.
  rewrite blank_cell.
  assert (∀ ps a, foldl (λ total p, total + cell (blank H W) p.1 p.2)%Z a ps = a) as ->.
  { induction ps as [|p ps IH]; intros a; [done|]. simpl.
    rewrite blank_cell, IH. lia. }
  done.
Qed.

Lemma next_gen_blank_witness :
  ∃ b' h', next_gen (VRef 1) dead_heap = Ok (b', h') ∧ is_board h' b' (blank 1 1).
Proof.
  apply (next_gen_blank dead_heap (VRef 1) 1 1).
  - exists 1, [0]. split; [reflexivity|]. split; [reflexivity|]. repeat constructor.
  - lia.
  - lia.
Defined.

(** ** Boards without rows or without columns *)

Lemma bind_Raise {A B} (m : M A) (f : A → M B) h e :
  m h = Raise e → (m ≫= f) h = Raise e.
Proof. intros E. unfold mbind, M_bind. by rewrite E. Qed.

Lemma is_board_nil h b : is_board h b [] → ∃ l, b = VRef l ∧ h !! l = Some [].
Proof.
  intros (l & rows & -> & Hl & Hrows). apply Forall2_nil_inv_r in Hrows as ->.
  by exists l.
Qed.

Lemma py_index_empty i : py_index 0 i = None.
Proof.
  unfold py_index. change (Z.of_nat 0) with 0%Z.
  destruct (i <? 0)%Z; [rewrite Z.add_0_r|];
    destruct (Z.leb_spec 0 i), (Z.ltb_spec i 0); first [done | lia].
Qed.

Lemma getitem_empty h l i : h !! l = Some [] → getitem (VRef l) i h = Raise IndexError.
Proof.
  intros Hl. unfold getitem, mbind, M_bind, deref. rewrite Hl.
  simpl length. by rewrite py_index_empty.
Qed.

Lemma make_board_any (width height : Z) h :
  ∃ b h',
    make_board width height h = Ok (b, h') ∧
    is_board h' b (replicate (Z.to_nat height) (replicate (Z.to_nat width) 0%Z)).
Proof.
  rewrite make_board_to_nat.
  destruct (make_board_spec (Z.to_nat width) (Z.to_nat height) h)
    as (l & rows & h' & E & Hown).
  exists (VRef l), h'. split; [done|].
  rewrite <- tabulate_const. by eapply owns_board_is_board.
Qed.

(** X6. A board without rows, as [make_board] returns for a height that is
    not positive, makes [next_gen], [count_neighbors] and [apply_pattern]
    raise [IndexError]: each of them reads [board[0]]. *)
Theorem no_rows_raises (width height x y : Z) (coords : list (Z * Z)) h :
  (height ≤ 0)%Z →
  (b ← make_board width height; next_gen b) h = Raise IndexError ∧
  (b ← make_board width height; count_neighbors b x y) h = Raise IndexError ∧
  (b ← make_board width height; apply_pattern b coords) h = Raise IndexError.
Proof.
  intros Hh. destruct (make_board_any width height h) as (b & h' & E & Hb).
  replace (Z.to_nat height) with 0 in Hb by lia.
  apply is_board_nil in Hb as (l & -> & Hl).
  pose proof (py_len_Ok _ _ _ Hl) as Elen.
  pose proof (getitem_empty _ _ 0 Hl) as Eget.
  rewrite !(bind_Ok _ _ _ _ _ E). unfold next_gen, count_neighbors, apply_pattern.
  rewrite !(bind_Ok _ _ _ _ _ Elen). by rewrite !(bind_Raise _ _ _ _ Eget).
Qed.

Lemma no_rows_raises_witness :
  (b ← make_board 4 0; next_gen b) ∅ = Raise IndexError ∧
  (b ← make_board 4 0; count_neighbors b 1 1) ∅ = Raise IndexError ∧
  (b ← make_board 4 0; apply_pattern b [(0, 0)%Z]) ∅ = Raise IndexError.
Proof. apply (no_rows_raises 4 0 1 1 [(0, 0)%Z] ∅). lia. Defined.

Lemma no_columns_dims H : dims (replicate H ([] : list Z)) H 0.
Proof.
  split; [apply length_replicate|]. apply Forall_forall.
  by intros row ->%elem_of_replicate_inv.
Qed.

Lemma next_gen_no_columns h b H :
  is_board h b (replicate H []) → 0 < H →
  ∃ b' h', next_gen b h = Ok (b', h') ∧ is_board h' b' (replicate H []).
Proof.
  intros Hb HH.
  destruct (board_dims _ _ _ _ _ Hb (no_columns_dims H) HH) as (row0 & E1 & E2 & E3).
  destruct (make_board_spec 0 H h) as (l & rows & h1 & Emk & Hown).
  unfold next_gen.
  rewrite (bind_Ok _ _ _ _ _ E1), (bind_Ok _ _ _ _ _ E2), (bind_Ok _ _ _ _ _ E3).
  rewrite (bind_Ok _ _ _ _ _ Emk).
  match goal with |- context [for_each _ ?body] =>
    destruct (for_each_range_inv (λ _ h', h' = h1) H body h1) as (h' & E & ->)
  end; [done|by intros k h2 _ ->; exists h1|].
  exists (VRef l), h1. split; [by rewrite (bind_Ok _ _ _ _ _ E)|].
  apply owns_board_is_board in Hown. by rewrite tabulate_const in Hown.
Qed.

Lemma apply_pattern_no_columns h b H (coords : list (Z * Z)) :
  is_board h b (replicate H []) → 0 < H →
  ∃ b' h', apply_pattern b coords h = Ok (b', h') ∧
           is_board h' b' (replicate H []).
Proof.
  intros Hb HH.
  destruct (board_dims _ _ _ _ _ Hb (no_columns_dims H) HH) as (row0 & E1 & E2 & E3).
  destruct (make_board_spec 0 H h) as (l & rows & h1 & Emk & Hown).
  unfold apply_pattern.
  rewrite (bind_Ok _ _ _ _ _ E1), (bind_Ok _ _ _ _ _ E2), (bind_Ok _ _ _ _ _ E3).
  rewrite (bind_Ok _ _ _ _ _ Emk).
  match goal with |- context [for_each _ ?body] =>
    destruct (for_each_inv (λ _ h', h' = h1) coords body h1) as (h' & E & ->)
  end; [done| |].
  - intros k [i j] h2 _ ->. exists h1. split; [|done].
    change (Z.of_nat 0) with 0%Z.
    destruct (Z.leb_spec 0 j), (Z.ltb_spec j 0); try lia;
      by rewrite ?andb_false_r.
  - exists (VRef l), h1. split; [by rewrite (bind_Ok _ _ _ _ _ E)|].
    apply owns_board_is_board in Hown. by rewrite tabulate_const in Hown.
Qed.

Lemma count_neighbors_no_columns h b H x y :
  is_board h b (replicate H []) → 0 < H →
  count_neighbors b x y h = Raise ZeroDivisionError.
Proof.
  intros Hb HH.
  destruct (board_dims _ _ _ _ _ Hb (no_columns_dims H) HH) as (row0 & E1 & E2 & E3).
  unfold count_neighbors.
  rewrite (bind_Ok _ _ _ _ _ E1), (bind_Ok _ _ _ _ _ E2), (bind_Ok _ _ _ _ _ E3).
  destruct (py_mod_Ok (x + -1) H h HH) as (k & _ & _ & Ek).
  simpl. apply bind_Raise, bind_Raise. by rewrite (bind_Ok _ _ _ _ _ Ek).
Qed.

(** X7. A board with rows but no columns, as [make_board] returns for a
    width that is not positive: [next_gen] and [apply_pattern] return a board
    of as many empty rows, and [count_neighbors] raises
    [ZeroDivisionError]. *)
Theorem no_columns_behaviour (width height x y : Z) (coords : list (Z * Z)) h :
  (width ≤ 0)%Z → (0 < height)%Z →
  (∃ b' h', (b ← make_board width height; next_gen b) h = Ok (b', h') ∧
            is_board h' b' (replicate (Z.to_nat height) [])) ∧
  (∃ b' h', (b ← make_board width height; apply_pattern b coords) h = Ok (b', h') ∧
            is_board h' b' (replicate (Z.to_nat height) [])) ∧
  (b ← make_board width height; count_neighbors b x y) h = Raise ZeroDivisionError.
Proof.
  intros Hw Hh. destruct (make_board_any width height h) as (b & h1 & E & Hb).
  replace (Z.to_nat width) with 0 in Hb by lia. simpl in Hb.
  rewrite !(bind_Ok _ _ _ _ _ E).
  split; [|split].
  - apply next_gen_no_columns; [done|lia].
  - apply apply_pattern_no_columns; [done|lia].
  - apply (count_neighbors_no_columns _ _ (Z.to_nat height)); [done|lia].
Qed.

Lemma no_columns_behaviour_witness :
  (∃ b' h', (b ← make_board 0 2; next_gen b) ∅ = Ok (b', h') ∧
            is_board h' b' (replicate (Z.to_nat 2) [])) ∧
  (∃ b' h', (b ← make_board 0 2; apply_pattern b [(0, 0)%Z]) ∅ = Ok (b', h') ∧
            is_board h' b' (replicate (Z.to_nat 2) [])) ∧
  (b ← make_board 0 2; count_neighbors b 0 0) ∅ = Raise ZeroDivisionError.
Proof. apply (no_columns_behaviour 0 2 0 0 [(0, 0)%Z] ∅); lia. Defined.

(** ** Patterns on boards *)

Lemma tabulate_cell g H W :
  dims g H W → tabulate (λ i j, cell g (Z.of_nat i) (Z.of_nat j)) H W = g.
Proof.
  intros Hd. pose proof (tabulate_dims (λ i j, cell g (Z.of_nat i) (Z.of_nat j)) H W) as Hd'.
  apply list_eq_same_length with H; [apply Hd|apply Hd'|].
  intros i row row' Hi Hrow Hrow'.
  destruct (dims_lookup _ _ _ _ Hd Hi) as (r & Hr & Hlen).
  rewrite Hr in Hrow'. injection Hrow' as <-.
  unfold tabulate in Hrow. rewrite list_lookup_fmap, lookup_seq_lt in Hrow by done.
  simpl in Hrow. injection Hrow as <-.
  apply list_eq_same_length with W; [done|by rewrite length_fmap, length_seq|].
  intros j c c' Hj Hc Hc'.
  rewrite list_lookup_fmap, lookup_seq_lt in Hc by done. simpl in Hc.
  destruct (dims_cell _ _ _ _ _ Hd Hi Hj) as (r' & Hr' & Hcell). congruence.
Qed.

(** X8. [apply_pattern] reads its board argument only for its dimensions,
    and the order and the repetitions of the coordinates do not matter: two
    boards of the same dimensions and two lists with the same elements give
    the same grid. *)
Theorem apply_pattern_set h1 b1 g1 h2 b2 g2 H W (coords1 coords2 : list (Z * Z)) :
  is_board h1 b1 g1 → dims g1 H W → is_board h2 b2 g2 → dims g2 H W →
  0 < H → 0 < W → (∀ p, p ∈ coords1 ↔ p ∈ coords2) →
  ∃ b1' h1' b2' h2' g',
    apply_pattern b1 coords1 h1 = Ok (b1', h1') ∧
    apply_pattern b2 coords2 h2 = Ok (b2', h2') ∧
    is_board h1' b1' g' ∧ is_board h2' b2' g'.
Proof.
  intros Hb1 Hd1 Hb2 Hd2 HH HW Hsame.
  destruct (apply_pattern_spec _ _ _ _ _ coords1 Hb1 Hd1 HH HW)
    as (l1 & rows1 & h1' & E1 & Hown1).
  destruct (apply_pattern_spec _ _ _ _ _ coords2 Hb2 Hd2 HH HW)
    as (l2 & rows2 & h2' & E2 & Hown2).
  exists (VRef l1), h1', (VRef l2), h2'. eexists.
  split; [done|]. split; [done|]. split; [by eapply owns_board_is_board|].
  eapply owns_board_is_board, owns_board_ext; [|exact Hown2].
  intros i j _ _. cbv beta.
  destruct (decide ((Z.of_nat i, Z.of_nat j) ∈ coords2)) as [Hin|Hnin].
  - rewrite decide_True; [done|]. by apply Hsame.
  - rewrite decide_False; [done|]. by rewrite Hsame.
Qed.

Lemma apply_pattern_set_witness :
  ∃ b1' h1' b2' h2' g',
    apply_pattern (VRef 3) [(1, 2); (0, 0); (1, 2); (9, 9)]%Z small_heap = Ok (b1', h1') ∧
    apply_pattern (VRef 3) [(9, 9); (0, 0); (1, 2)]%Z small_heap = Ok (b2', h2') ∧
    is_board h1' b1' g' ∧ is_board h2' b2' g'.
Proof.
  apply (apply_pattern_set small_heap (VRef 3) small_grid
           small_heap (VRef 3) small_grid 3 4).
  - exists 3, [0; 1; 2]. split; [reflexivity|]. split; [reflexivity|].
    repeat constructor.
  - split; [reflexivity|]. repeat constructor.
  - exists 3, [0; 1; 2]. split; [reflexivity|]. split; [reflexivity|].
    repeat constructor.
  - split; [reflexivity|]. repeat constructor.
  - lia.
  - lia.
  - intros p. rewrite !elem_of_cons. tauto.
Defined.

Lemma apply_pattern_alive_cells h b g0 g H W :
  is_board h b g0 → dims g0 H W → dims g H W → binary g → 0 < H → 0 < W →
  ∃ l rows h',
    apply_pattern b (alive_cells g) h = Ok (VRef l, h') ∧
    owns_board h h' l rows (λ i j, cell g (Z.of_nat i) (Z.of_nat j)) H W.
Proof.
  intros Hb Hd0 Hd Hbin HH HW.
  destruct (apply_pattern_spec _ _ _ _ _ (alive_cells g) Hb Hd0 HH HW)
    as (l & rows & h' & E & Hown).
  exists l, rows, h'. split; [done|].
  eapply owns_board_ext; [|exact Hown].
  intros i j Hi Hj. cbv beta.
  assert (cell_at g (Z.of_nat i) (Z.of_nat j)
          = Some (cell g (Z.of_nat i) (Z.of_nat j))) as Hcell
    by (apply (cell_at_in_range g H W); [done|lia|lia]).
  destruct (binary_cell g (Z.of_nat i) (Z.of_nat j) Hbin) as [E0|E1].
  - rewrite decide_False; [done|]. rewrite elem_of_alive_cells.
    unfold alive. rewrite Hcell, E0. done.
  - rewrite decide_True; [done|]. rewrite elem_of_alive_cells.
    unfold alive. by rewrite Hcell, E1.
Qed.

(** X9. Applying the alive cells of a grid of dead and alive cells to a
    board of the same dimensions gives that grid back. *)
Theorem apply_alive_cells h b g0 g H W :
  is_board h b g0 → dims g0 H W → dims g H W → binary g → 0 < H → 0 < W →
  ∃ b' h', apply_pattern b (alive_cells g) h = Ok (b', h') ∧ is_board h' b' g.
Proof.
  intros Hb Hd0 Hd Hbin HH HW.
  destruct (apply_pattern_alive_cells _ _ _ _ _ _ Hb Hd0 Hd Hbin HH HW)
    as (l & rows & h' & E & Hown).
  exists (VRef l), h'. split; [done|].
  rewrite <- (tabulate_cell g H W Hd) at 1. by eapply owns_board_is_board.
Qed.

Lemma apply_alive_cells_witness :
  ∃ b' h', apply_pattern (VRef 3) (alive_cells small_grid) small_heap = Ok (b', h') ∧
           is_board h' b' small_grid.
Proof.
  apply (apply_alive_cells small_heap (VRef 3) small_grid small_grid 3 4).
  - exists 3, [0; 1; 2]. split; [reflexivity|]. split; [reflexivity|].
    repeat constructor.
  - split; [reflexivity|]. repeat constructor.
  - split; [reflexivity|]. repeat constructor.
  - apply small_grid_binary.
  - lia.
  - lia.
Defined.

(** X10. [apply_pattern] changes no object of the store it is run in, so
    its board argument holds the same grid afterwards, and the board it
    returns is a new object. *)
Theorem apply_pattern_frame h b g H W (coords : list (Z * Z)) :
  is_board h b g → dims g H W → 0 < H → 0 < W →
  ∃ l' h',
    apply_pattern b coords h = Ok (VRef l', h') ∧
    h !! l' = None ∧ h ⊆ h' ∧ is_board h' b g.
Proof.
  intros Hb Hd HH HW.
  destruct (apply_pattern_spec _ _ _ _ _ coords Hb Hd HH HW)
    as (l & rows & h' & E & Hown).
  exists l, h'. split; [done|]. split; [apply Hown|]. split; [apply Hown|].
  eapply is_board_mono; [apply Hown|done].
Qed.

Lemma apply_pattern_frame_witness :
  ∃ l' h',
    apply_pattern (VRef 3) [(0, 0); (2, 2)]%Z small_heap = Ok (VRef l', h') ∧
    small_heap !! l' = None ∧ small_heap ⊆ h' ∧ is_board h' (VRef 3) small_grid.
Proof.
  apply (apply_pattern_frame small_heap (VRef 3) small_grid 3 4).
  - exists 3, [0; 1; 2]. split; [reflexivity|]. split; [reflexivity|].
    repeat constructor.
  - split; [reflexivity|]. repeat constructor.
  - lia.
  - lia.
Defined.

(** ** Pattern files *)

(** X11. What comes before the first header of a file is ignored: lines
    without a header give no pattern, and put before a header they change
    nothing. *)
Theorem load_ignores_preamble (body rest : list string) (hdr : string) :
  Forall (λ raw, is_header raw = false) body → is_header hdr = true →
  load_lines body = Ok ∅ ∧
  load_lines (body ++ hdr :: rest) = load_lines (hdr :: rest).
Proof.
  intros Hbody Hhdr. rewrite !load_lines_run. split.
  - by rewrite (run_body _ _ Hbody).
  - rewrite foldl_app, (run_body _ _ Hbody). simpl.
    by rewrite !(next_state_header _ _ _ (is_header_header_of _ Hhdr)).
Qed.

Lemma load_ignores_preamble_witness :
  load_lines ["1,2"; "junk"; "3,4"] = Ok ∅ ∧
  load_lines (["1,2"; "junk"; "3,4"] ++ "# Pattern: A" :: ["5,6"])
  = load_lines ("# Pattern: A" :: ["5,6"]).
Proof.
  apply (load_ignores_preamble ["1,2"; "junk"; "3,4"] ["5,6"] "# Pattern: A").
  - repeat constructor.
  - reflexivity.
Defined.



(** ** Reading a pattern library *)








(** Stripping *)

Lemma lstrip_fix_or_shorter s :
  lstrip s = s ∨ String.length (lstrip s) < String.length s.
Proof.
  induction s as [|c s IH]; [by left|]. simpl.
  destruct (is_space c); [|by left]. right. destruct IH as [->|]; lia.
Qed.














(** Stripping twice *)

Lemma lstrip_rstrip t : lstrip t = t → lstrip (rstrip t) = rstrip t.
Proof.
  destruct t as [|c r]; [done|]. simpl.
  destruct (is_space c) eqn:Hc.
  - intros Hl. pose proof (lstrip_fix_or_shorter r) as [E|Hlt].
    + rewrite E in Hl. apply (f_equal String.length) in Hl. simpl in Hl. lia.
    + rewrite Hl in Hlt. simpl in Hlt. lia.
  - intros _. destruct (rstrip r); simpl; by rewrite Hc.
Qed.

Lemma lstrip_idem s : lstrip (lstrip s) = lstrip s.
Proof.
  induction s as [|c s IH]; [done|]. simpl.
  destruct (is_space c) eqn:Hc; [done|]. simpl. by rewrite Hc.
Qed.

Lemma rstrip_idem s : rstrip (rstrip s) = rstrip s.
Proof.
  induction s as [|c s IH]; [done|]. simpl.
  destruct (rstrip s) as [|c' r] eqn:E.
  - destruct (is_space c) eqn:Hc; [done|]. simpl. by rewrite Hc.
  - simpl in *. by rewrite IH.
Qed.

Lemma strip_idem s : strip (strip s) = strip s.
Proof.
  unfold strip. rewrite (lstrip_rstrip _ (lstrip_idem s)). apply rstrip_idem.
Qed.

Lemma store_block_stripped st :
  names_stripped st → ∀ n cs, store_block st !! n = Some cs → strip n = n.
Proof.
  intros [HP Hn] n cs. unfold store_block.
  destruct (current_name st) as [name|]; [|apply HP].
  destruct (_ && _); [|apply HP].
  destruct (decide (name = n)) as [<-|Hne].
  - intros _. by apply Hn.
  - rewrite lookup_insert_ne by done. apply HP.
Qed.

Lemma run_stripped st lines :
  names_stripped st → names_stripped (foldl next_state st lines).
Proof.
  revert st. induction lines as [|raw lines IH]; intros st Hst; [done|].
  simpl. apply IH. unfold next_state. destruct (is_header raw).
  - split; simpl.
    + by apply store_block_stripped.
    + intros n [= <-]. apply strip_idem.
  - done.
Qed.

(** X14. The names [load_patterns] returns are stripped: no name has a
    space at either end, whatever the file holds. *)
Theorem load_names_stripped filename (fs : gmap string string) m name cs :
  load_patterns filename fs = Ok m → m !! name = Some cs → strip name = name.
Proof.
  unfold load_patterns. destruct (fs !! filename) as [text|].
  - rewrite load_lines_run. intros [= <-]. apply store_block_stripped, run_stripped.
    split; [|done]. simpl. intros n cs'. by rewrite lookup_empty.
  - intros [= <-]. by rewrite lookup_empty.
Qed.

Lemma load_names_stripped_witness : strip "Glider" = "Glider".
Proof.
  apply (load_names_stripped "patterns.txt"
           {["patterns.txt" := "# Pattern:   Glider  " +:+ nl +:+ "1,2" +:+ nl]}
           {["Glider" := [(1, 2)%Z]]} "Glider" [(1, 2)%Z]).
  - reflexivity.
  - reflexivity.
Defined.

(** ** Saving, loading and applying *)

(** X15. Save and load restore the board: for a board of dead and alive
    cells with at least one alive cell, the file [save_pattern] writes is
    read by [load_patterns] as the one pattern [Saved], and applying its
    coordinates to a new board of the same dimensions gives the grid that was
    saved; the saved board itself is untouched. *)
Theorem save_load_apply h b g H W filename (fs : gmap string string) :
  is_board h b g → dims g H W → binary g → 0 < H → 0 < W →
  alive_cells g ≠ [] →
  ∃ fs' cs b' h',
    save_pattern b filename h fs = Ok fs' ∧
    load_patterns filename fs' = Ok {["Saved" := cs]} ∧
    (b0 ← make_board (Z.of_nat W) (Z.of_nat H); apply_pattern b0 cs) h
    = Ok (b', h') ∧
    is_board h' b' g ∧ is_board h' b g.
Proof.
  intros Hb Hd Hbin HH HW Hcells.
  destruct (make_board_spec W H h) as (l0 & rows0 & h0 & Emk & Hown0).
  pose proof (owns_board_is_board _ _ _ _ _ _ _ Hown0) as Hb0.
  destruct (apply_pattern_alive_cells _ _ _ _ _ _ Hb0 (tabulate_dims _ H W) Hd Hbin HH HW)
    as (l & rows & h' & E & Hown).
  exists (<[filename:=encode "Saved" g]> fs), (alive_cells g), (VRef l), h'.
  split; [by apply save_pattern_spec|]. split; [|split; [|split]].
  - rewrite load_encoded. by rewrite store_block_named.
  - by rewrite (bind_Ok _ _ _ _ _ Emk).
  - rewrite <- (tabulate_cell g H W Hd) at 1. by eapply owns_board_is_board.
  - eapply is_board_mono; [|exact Hb]. etrans; [apply Hown0|apply Hown].
Qed.

Lemma save_load_apply_witness :
  ∃ fs' cs b' h',
    save_pattern (VRef 3) "saved.txt" small_heap ∅ = Ok fs' ∧
    load_patterns "saved.txt" fs' = Ok {["Saved" := cs]} ∧
    (b0 ← make_board 4 3; apply_pattern b0 cs) small_heap = Ok (b', h') ∧
    is_board h' b' small_grid ∧ is_board h' (VRef 3) small_grid.
Proof.
  apply (save_load_apply small_heap (VRef 3) small_grid 3 4 "saved.txt" ∅).
  - exists 3, [0; 1; 2]. split; [reflexivity|]. split; [reflexivity|].
    repeat constructor.
  - split; [reflexivity|]. repeat constructor.
  - apply small_grid_binary.
  - lia.
  - lia.
  - vm_compute. discriminate.
Defined.

(** ** Drawing the board *)

Lemma for_fold_pure_in {A S} (xs : list A) (body : A → S → M S) (g : S → A → S) s h :
  (∀ a s, a ∈ xs → body a s h = Ok (g s a, h)) →
  for_fold xs s body h = Ok (foldl g s xs, h).
Proof.
  revert s. induction xs as [|x xs IH]; intros s Hb; [done|].
  simpl. rewrite (bind_Ok _ _ _ _ _ (Hb x s (list_elem_of_here _ _))).
  apply IH. intros a s' Ha. apply Hb. by right.
Qed.

Lemma elem_of_range n x : x ∈ range (Z.of_nat n) → ∃ k, x = Z.of_nat k ∧ k < n.
Proof.
  intros (k & Hk)%list_elem_of_lookup_1. apply range_lookup in Hk as [-> ?].
  by exists k.
Qed.

Lemma foldl_bind {A B S} (f : S → B → S) (g : A → list B) s (l : list A) :
  foldl f s (l ≫= g) = foldl (λ s x, foldl f s (g x)) s l.
Proof.
  revert s. induction l as [|x l IH]; intros s; [done|].
  by rewrite bind_cons, foldl_app, IH.
Qed.

Lemma foldl_ext_eq {A S} (f g : S → A → S) s (l : list A) :
  (∀ s x, f s x = g s x) → foldl f s l = foldl g s l.
Proof.
  intros Hfg. revert s. induction l as [|x l IH]; intros s; [done|].
  simpl. by rewrite Hfg, IH.
Qed.

(** The alive cells, read by index. *)
Lemma row_cells_by_index i k row (c : nat → Z) :
  (∀ n, n < length row → row !! n = Some (c (k + n))) →
  row_cells i k row
  = seq k (length row) ≫= (λ n, if (c n =? 1)%Z then [(i, Z.of_nat n)] else []).
Proof.
  revert k. induction row as [|x row IH]; intros k Hc; [done|].
  rewrite row_cells_cons. simpl length. simpl seq. rewrite bind_cons.
  pose proof (Hc 0 ltac:(simpl; lia)) as H0. simpl in H0.
  rewrite Nat.add_0_r in H0. injection H0 as ->. f_equal.
  apply IH. intros n Hn. specialize (Hc (S n) ltac:(simpl; lia)). simpl in Hc.
  by rewrite Nat.add_succ_r in Hc.
Qed.

Lemma cells_from_by_index k (g : grid) W (c : nat → nat → Z) :
  Forall (λ row, length row = W) g →
  (∀ n m row, g !! n = Some row → m < W → row !! m = Some (c (k + n) m)) →
  cells_from k g
  = seq k (length g) ≫= (λ i, seq 0 W ≫= (λ j,
      if (c i j =? 1)%Z then [(Z.of_nat i, Z.of_nat j)] else [])).
Proof.
  intros Hlen. revert k. induction Hlen as [|row g Hrow _ IH]; intros k Hc; [done|].
  rewrite cells_from_cons. simpl length. simpl seq. rewrite bind_cons. f_equal.
  - rewrite (row_cells_by_index _ 0 row (c k)), Hrow; [done|].
    intros m Hm. rewrite <- (Nat.add_0_r k) at 1. apply Hc; [done|lia].
  - apply IH. intros n m row' Hn Hm. rewrite Nat.add_succ_l, <- Nat.add_succ_r.
    by apply (Hc (S n)).
Qed.

Lemma alive_cells_by_index g H W :
  dims g H W →
  alive_cells g
  = seq 0 H ≫= (λ i, seq 0 W ≫= (λ j,
      if (cell g (Z.of_nat i) (Z.of_nat j) =? 1)%Z
      then [(Z.of_nat i, Z.of_nat j)] else [])).
Proof.
  intros Hd. destruct Hd as [HH HW] eqn:Hdims. rewrite alive_cells_from.
  rewrite (cells_from_by_index 0 g W
             (λ i j, cell g (Z.of_nat i) (Z.of_nat j)) HW), HH; [done|].
  intros n m row Hn Hm. simpl.
  destruct (dims_cell g H W n m (conj HH HW)) as (row' & Hrow' & Hcell);
    [by rewrite <- HH; eapply lookup_lt_Some|done|].
  congruence.
Qed.

Lemma foldl_draw_cell cell_size (ps : list (Z * Z)) n screen :
  foldl (draw_cell cell_size) (n, screen) ps
  = ((n + Z.of_nat (length ps))%Z, screen ++ (cell_rect cell_size <$> ps)).
Proof.
  revert n screen. induction ps as [|p ps IH]; intros n screen.
  - simpl. by rewrite Z.add_0_r, app_nil_r.
  - simpl. unfold draw_cell at 2. simpl. rewrite IH, <- app_assoc. simpl.
    f_equal. lia.
Qed.

(** X16. For a board of [H > 0] rows of equal length [draw_board] clears
    the screen, then draws one square per alive cell, in scan order, the
    square of the cell at row [i], column [j] at [(j * cell_size, i *
    cell_size)] with sides [cell_size - 1]; it returns the number of alive
    cells and leaves the store as it was. *)
Theorem draw_board_alive_cells h b g H W screen (cell_size : Z) :
  is_board h b g → dims g H W → 0 < H →
  draw_board screen b cell_size h
  = Ok ((Z.of_nat (length (alive_cells g)),
         screen ++ Fill (0, 0, 0)%Z :: (cell_rect cell_size <$> alive_cells g)),
        h).
Proof.
  intros Hb Hd HH.
  destruct (board_dims _ _ _ _ _ Hb Hd HH) as (row0 & E1 & E2 & E3).
  unfold draw_board.
  rewrite (bind_Ok _ _ _ _ _ E1), (bind_Ok _ _ _ _ _ E2), (bind_Ok _ _ _ _ _ E3).
  rewrite (for_fold_pure_in _ _ (λ s i,
    foldl (λ s j, if (cell g i j =? 1)%Z
                  then draw_cell cell_size s (i, j) else s)
      s (range (Z.of_nat W)))); last first.
  { intros i s (k & -> & Hk)%elem_of_range.
    apply for_fold_pure_in.
    intros j [n scr] (m & -> & Hm)%elem_of_range.
    destruct (dims_cell _ _ _ _ _ Hd Hk Hm) as (row & Hrow & Hc).
    rewrite (is_board_cell _ _ _ _ _ _ _ _ Hb Hrow Hc). unfold val_eqb.
    by destruct (_ =? 1)%Z. }
  do 2 f_equal. rewrite (alive_cells_by_index _ _ _ Hd).
  replace (screen ++ Fill (0, 0, 0)%Z :: (cell_rect cell_size <$> _))
    with ((screen ++ [Fill (0, 0, 0)%Z]) ++ (cell_rect cell_size <$>
            (seq 0 H ≫= (λ i, seq 0 W ≫= (λ j,
               if (cell g (Z.of_nat i) (Z.of_nat j) =? 1)%Z
               then [(Z.of_nat i, Z.of_nat j)] else [])))))
    by (by rewrite <- app_assoc).
  rewrite <- (Z.add_0_l (Z.of_nat (length _))), <- foldl_draw_cell.
  rewrite !foldl_bind. unfold range. rewrite !Nat2Z.id, foldl_fmap.
  apply foldl_ext_eq. intros s i. rewrite foldl_fmap, foldl_bind.
  apply foldl_ext_eq. intros s' j. by destruct (_ =? 1)%Z.
Qed.

Lemma draw_board_alive_cells_witness :
  draw_board [] (VRef 3) 20 small_heap
  = Ok ((Z.of_nat (length (alive_cells small_grid)),
         [] ++ Fill (0, 0, 0)%Z :: (cell_rect 20 <$> alive_cells small_grid)),
        small_heap).
Proof.
  apply (draw_board_alive_cells small_heap (VRef 3) small_grid 3 4 [] 20).
  - exists 3, [0; 1; 2]. split; [reflexivity|]. split; [reflexivity|].
    repeat constructor.
  - split; [reflexivity|]. repeat constructor.
  - lia.
Defined.

(** ** The main loop *)

Lemma owns_board_weaken h0 h l rows f H W :
  owns_board h0 h l rows f H W → owns_board ∅ h l rows f H W.
Proof.
  intros (Hsub & Hl0 & Hl & Hlen & Hnd & Hnotin & Hrows).
  split; [apply map_empty_subseteq|]. split; [apply lookup_empty|].
  do 4 (split; [done|]). intros i r Hr.
  destruct (Hrows i r Hr) as (_ & Ho). split; [apply lookup_empty|done].
Qed.

Lemma owns_board_mono h0 h1 h l rows f H W :
  h0 ⊆ h1 → owns_board h1 h l rows f H W → owns_board h0 h l rows f H W.
Proof.
  intros H01 (Hsub & Hl0 & Hl & Hlen & Hnd & Hnotin & Hrows).
  split; [by etrans|]. split; [by eapply lookup_weaken_None|].
  do 4 (split; [done|]). intros i r Hr.
  destruct (Hrows i r Hr) as (Hr0 & Ho). split; [by eapply lookup_weaken_None|done].
Qed.

(** [board[i][j] = v] on a board of its own *)
Lemma owns_board_set_val h0 h l rows f H W i j (v : Z) :
  owns_board h0 h l rows f H W → i < H → j < W →
  ∃ h',
    (row ← getitem (VRef l) (Z.of_nat i);
     setitem row (Z.of_nat j) (VInt v)) h = Ok ((), h') ∧
    owns_board h0 h' l rows
      (λ i' j', if decide (i' = i ∧ j' = j) then v else f i' j') H W.
Proof.
  intros (Hsub & Hl0 & Hl & Hlen & Hnd & Hnotin & Hrows) Hi Hj.
  destruct (lookup_lt_is_Some_2 rows i) as [r Hr]; [lia|].
  destruct (Hrows i r Hr) as (Hr0 & o & Ho & Holen & Hcells).
  exists (<[r:=VInt <$> <[j:=v]> o]> h). split.
  { erewrite bind_Ok; last first.
    { eapply getitem_Ok; [exact Hl|]. by rewrite list_lookup_fmap, Hr. }
    unfold setitem. rewrite Ho, py_index_nat by (rewrite length_fmap; lia).
    by rewrite list_fmap_insert. }
  assert (l ≠ r) as Hlr.
  { intros ->. apply Hnotin. by eapply list_elem_of_lookup_2. }
  split; [by apply insert_subseteq_r|]. split; [done|].
  split; [by rewrite lookup_insert_ne|]. repeat (split; [done|]).
  intros i' r' Hr'. destruct (Hrows i' r' Hr') as (Hr0' & o' & Ho' & Holen' & Hcells').
  split; [done|]. destruct (decide (i' = i)) as [->|Hne].
  - assert (r' = r) as -> by congruence.
    exists (<[j:=v]> o). rewrite lookup_insert_eq. split; [done|].
    split; [by rewrite length_insert|]. intros j' Hj'.
    destruct (decide (j' = j)) as [->|Hnej].
    + rewrite decide_True by done. apply list_lookup_insert_eq. lia.
    + rewrite decide_False by (intros [_ ?]; done).
      rewrite list_lookup_insert_ne by done. by apply Hcells.
  - assert (r' ≠ r) as Hner.
    { intros ->. apply Hne. by eapply NoDup_lookup. }
    exists o'. rewrite lookup_insert_ne by done. repeat (split; [done|]).
    intros j' Hj'. rewrite decide_False by (intros [? _]; done). by apply Hcells'.
Qed.

(** The loops of the random fill, with [c i j] written at [(i, j)]. *)
Lemma fill_board h0 h l rows f H W (c : Z → Z → Z) :
  owns_board h0 h l rows f H W →
  ∃ h',
    for_each (range (Z.of_nat H)) (λ i,
      for_each (range (Z.of_nat W)) (λ j,
        row ← getitem (VRef l) i;
        setitem row j (VInt (c i j)))) h = Ok ((), h') ∧
    owns_board h0 h' l rows (λ i j, c (Z.of_nat i) (Z.of_nat j)) H W.
Proof.
  intros Hown.
  match goal with |- context [for_each _ ?body] =>
    destruct (for_each_range_inv
      (λ k h', owns_board h0 h' l rows
         (λ i' j', if decide (i' < k) then c (Z.of_nat i') (Z.of_nat j')
                   else f i' j') H W)
      H body h) as (h' & E & Hfin)
  end.
  - eapply owns_board_ext; [|exact Hown]. by_cases.
  - intros i h2 Hi Hout. cbv beta.
    match goal with |- context [for_each _ ?body] =>
      destruct (for_each_range_inv
        (λ k h', owns_board h0 h' l rows
           (λ i' j', if decide (i' < i ∨ (i' = i ∧ j' < k))
                     then c (Z.of_nat i') (Z.of_nat j') else f i' j') H W)
        W body h2) as (h3 & E & Hfin)
    end.
    + eapply owns_board_ext; [|exact Hout]. by_cases.
    + intros j h3 Hj Hin. cbv beta.
      destruct (owns_board_set_val _ _ _ _ _ _ _ _ _ (c (Z.of_nat i) (Z.of_nat j))
                  Hin Hi Hj) as (h4 & Eset & Hset).
      exists h4. split; [done|].
      eapply owns_board_ext; [|exact Hset]. intros i' j' _ _. cbv beta.
      destruct (decide (i' = i ∧ j' = j)) as [[-> ->]|Hne].
      * by rewrite decide_True by lia.
      * by_cases.
    + exists h3. split; [done|].
      eapply owns_board_ext; [|exact Hfin]. intros i' j' _ Hj'. by_cases.
  - exists h'. split; [done|].
    eapply owns_board_ext; [|exact Hfin]. by_cases.
Qed.

Lemma main_board_is_board H W w g :
  main_board H W w g → is_board (w_heap w) (w_board w) g ∧ dims g H W.
Proof.
  intros (l & rows & f & -> & Hown & ->).
  split; [by eapply owns_board_is_board|apply tabulate_dims].
Qed.

(** A new board of [main] made by [apply_pattern(make_board(W, H), coords)]. *)
Lemma make_and_apply (H W : nat) (coords : list (Z * Z)) h :
  0 < H → 0 < W →
  ∃ l rows h',
    (b ← make_board (Z.of_nat W) (Z.of_nat H); apply_pattern b coords) h
    = Ok (VRef l, h') ∧
    owns_board h h' l rows
      (λ i j, if decide ((Z.of_nat i, Z.of_nat j) ∈ coords) then 1%Z else 0%Z)
      H W.
Proof.
  intros HH HW.
  destruct (make_board_spec W H h) as (l0 & rows0 & h0 & Emk & Hown0).
  pose proof (owns_board_is_board _ _ _ _ _ _ _ Hown0) as Hb0.
  destruct (apply_pattern_spec _ _ _ _ _ coords Hb0 (tabulate_dims _ H W) HH HW)
    as (l & rows & h' & E & Hown).
  exists l, rows, h'. split; [by rewrite (bind_Ok _ _ _ _ _ Emk)|].
  eapply owns_board_mono; [apply Hown0|done].
Qed.


Lemma cell_index (n : nat) (x : Z) :
  (0 ≤ x < Z.of_nat n * CELL_SIZE)%Z →
  ∃ k, (x / CELL_SIZE)%Z = Z.of_nat k ∧ k < n.
Proof.
  intros Hx. unfold CELL_SIZE in *. exists (Z.to_nat (x / 20)).
  assert (0 ≤ x / 20 < Z.of_nat n)%Z.
  { split; [apply Z.div_pos; lia|apply Z.div_lt_upper_bound; lia]. }
  split; lia.
Qed.

Lemma mouse_click_spec (H W : nat) lib first ev h fs out l rows f running generation mx my :
  owns_board ∅ h l rows f H W →
  mouse_pressed ev = true → mouse_pos ev = (mx, my) →
  (0 ≤ mx < Z.of_nat W * CELL_SIZE)%Z → (0 ≤ my < Z.of_nat H * CELL_SIZE)%Z →
  ∃ h',
    mouse_click (Config (Z.of_nat W) (Z.of_nat H) lib first) ev
      (World h fs out (VRef l) running generation)
    = Ok (World h' fs out (VRef l) running generation) ∧
    owns_board ∅ h' l rows
      (λ i j, if decide (i = Z.to_nat (my / CELL_SIZE) ∧ j = Z.to_nat (mx / CELL_SIZE))
              then 1%Z else f i j) H W.
Proof.
  intros Hown Hpressed Hpos Hmx Hmy. unfold mouse_click. rewrite Hpressed, Hpos.
  simpl cfg_H. destruct (Z.ltb_spec my (Z.of_nat H * CELL_SIZE)); [|lia].
  destruct (cell_index _ _ Hmx) as (j & Ej & Hj).
  destruct (cell_index _ _ Hmy) as (i & Ei & Hi).
  rewrite Ei, Ej, !Nat2Z.id.
  destruct (owns_board_set_val _ _ _ _ _ _ _ _ _ 1 Hown Hi Hj) as (h' & E & Hown').
  exists h'. by rewrite E.
Qed.


Lemma small_world_board : main_board 3 4 small_world small_grid.
Proof.
  exists 3, [0; 1; 2], (λ i j, cell small_grid (Z.of_nat i) (Z.of_nat j)).
  split; [done|]. split; [|done].
  split; [apply map_empty_subseteq|]. split; [apply lookup_empty|].
  split; [done|]. split; [done|].
  split; [compute_done|]. split; [compute_done|].
  intros [|[|[|i]]] r [= <-]; (split; [apply lookup_empty|]).
  - exists [0;1;0;0]%Z. split; [done|]. split; [done|].
    by intros [|[|[|[|j]]]] Hj; [..|lia].
  - exists [0;1;1;0]%Z. split; [done|]. split; [done|].
    by intros [|[|[|[|j]]]] Hj; [..|lia].
  - exists [0;0;0;1]%Z. split; [done|]. split; [done|].
    by intros [|[|[|[|j]]]] Hj; [..|lia].
Qed.

Lemma first_listed_ok (m : gmap string (list (Z * Z))) :
  m ≠ ∅ → m !! (first_listed m).1 = Some (first_listed m).2.
Proof.
  intros Hne. unfold first_listed.
  destruct (map_to_list m) as [|[k v] l] eqn:E.
  - by apply map_to_list_empty_iff in E.
  - simpl. apply elem_of_map_to_list. rewrite E. by left.
Qed.



Lemma handle_event_other cfg ev w :
  ev_type ev = OTHER →
  handle_event cfg ev w
  = match mouse_click cfg ev w with
    | Ok w' => Continue w'
    | Raise e => Failed e
    end.
Proof. intros Htype. unfold handle_event. by rewrite Htype. Qed.

Lemma handle_event_key cfg ev w w1 :
  ev_type ev = KEYDOWN → mouse_pressed ev = false →
  key_down cfg ev w = Ok w1 → handle_event cfg ev w = Continue w1.
Proof.
  intros Htype Hmouse E. unfold handle_event. rewrite Htype, E. simpl.
  unfold mouse_click. rewrite Hmouse. by destruct w1.
Qed.

(** X18. A click sets the cell under the pointer: with the mouse pressed at
    [(mx, my)] inside the board area, an event that is neither [QUIT] nor a
    key sets the cell at row [my // 20], column [mx // 20] of the board to
    alive, in place, and changes no other cell and no other variable; with
    the pointer below the board area ([my >= H * 20]) it changes nothing. *)
Theorem click_sets_cell (H W : nat) lib first ev w g (mx my : Z) :
  main_board H W w g → ev_type ev = OTHER →
  mouse_pressed ev = true → mouse_pos ev = (mx, my) →
  (0 ≤ mx < Z.of_nat W * CELL_SIZE)%Z → (0 ≤ my)%Z →
  if (my <? Z.of_nat H * CELL_SIZE)%Z then
    ∃ h' g',
      handle_event (Config (Z.of_nat W) (Z.of_nat H) lib first) ev w
      = Continue (World h' (w_files w) (w_out w) (w_board w) (w_running w)
                    (w_generation w)) ∧
      main_board H W (World h' (w_files w) (w_out w) (w_board w) (w_running w)
                        (w_generation w)) g' ∧
      ∀ i j : Z,
        cell_at g' i j
        = if decide (i = my / CELL_SIZE ∧ j = mx / CELL_SIZE)%Z
          then Some 1%Z else cell_at g i j
  else handle_event (Config (Z.of_nat W) (Z.of_nat H) lib first) ev w = Continue w.
Proof.
  intros Hmain Htype Hpressed Hpos Hmx Hmy.
  destruct w as [h fs out board running generation].
  rewrite (handle_event_other _ _ _ Htype). simpl w_files. simpl w_out.
  simpl w_board. simpl w_running. simpl w_generation.
  destruct (Z.ltb_spec my (Z.of_nat H * CELL_SIZE)) as [Hlt|Hge]; last first.
  { unfold mouse_click. rewrite Hpressed, Hpos. simpl cfg_H.
    by destruct (Z.ltb_spec my (Z.of_nat H * CELL_SIZE)); [lia|]. }
  destruct Hmain as (l & rows & f & Hboard & Hown & ->). simpl in Hboard. subst board.
  destruct (mouse_click_spec H W lib first ev h fs out l rows f running generation
              mx my Hown Hpressed Hpos Hmx (conj Hmy Hlt)) as (h' & E & Hown').
  rewrite E. eexists h', _. split; [done|]. split.
  { exists l, rows. eexists. by split. }
  intros i j. rewrite !cell_at_tabulate.
  destruct (cell_index _ _ Hmx) as (kj & Ej & Hkj).
  destruct (cell_index _ _ (conj Hmy Hlt)) as (ki & Ei & Hki).
  rewrite Ei, Ej, !Nat2Z.id.
  destruct (decide (0 ≤ i < Z.of_nat H ∧ 0 ≤ j < Z.of_nat W)%Z) as [[Hi Hj]|Hout].
  - destruct (decide (i = Z.of_nat ki ∧ j = Z.of_nat kj)) as [[-> ->]|Hne].
    + by rewrite !Nat2Z.id, decide_True.
    + rewrite decide_False; [done|]. intros [? ?]. apply Hne. lia.
  - rewrite decide_False; [done|]. intros [-> ->]. apply Hout. lia.
Qed.

Lemma click_sets_cell_witness :
  if (30 <? Z.of_nat 3 * CELL_SIZE)%Z then
    ∃ h' g',
      handle_event (Config (Z.of_nat 4) (Z.of_nat 3) ∅ first_listed)
        (Event OTHER K_other true (45, 30)%Z (λ _ _, false)) small_world
      = Continue (World h' (w_files small_world) (w_out small_world)
                    (w_board small_world) (w_running small_world)
                    (w_generation small_world)) ∧
      main_board 3 4 (World h' (w_files small_world) (w_out small_world)
                        (w_board small_world) (w_running small_world)
                        (w_generation small_world)) g' ∧
      ∀ i j : Z,
        cell_at g' i j
        = if decide (i = 30 / CELL_SIZE ∧ j = 45 / CELL_SIZE)%Z
          then Some 1%Z else cell_at small_grid i j
  else handle_event (Config (Z.of_nat 4) (Z.of_nat 3) ∅ first_listed)
         (Event OTHER K_other true (45, 30)%Z (λ _ _, false)) small_world
       = Continue small_world.
Proof.
  apply (click_sets_cell 3 4 ∅ first_listed
           (Event OTHER K_other true (45, 30)%Z (λ _ _, false))
           small_world small_grid 45 30).
  - apply small_world_board.
  - reflexivity.
  - reflexivity.
  - reflexivity.
  - unfold CELL_SIZE. lia.
  - lia.
Defined.

(** X19. The key [R] fills the board of [main] in place: every cell gets
    the outcome of its own call of [random.choice([0, 1])], so the board has
    only dead and alive cells; the board object stays the same, the
    generation counter is reset and nothing else changes. *)
Theorem random_fill (H W : nat) lib first ev w g :
  main_board H W w g →
  ev_type ev = KEYDOWN → ev_key ev = K_r → mouse_pressed ev = false →
  ∃ h',
    handle_event (Config (Z.of_nat W) (Z.of_nat H) lib first) ev w
    = Continue (World h' (w_files w) (w_out w) (w_board w) (w_running w) 0) ∧
    main_board H W (World h' (w_files w) (w_out w) (w_board w) (w_running w) 0)
      (tabulate (λ i j, Z.b2z (ev_choice ev (Z.of_nat i) (Z.of_nat j))) H W) ∧
    binary (tabulate (λ i j, Z.b2z (ev_choice ev (Z.of_nat i) (Z.of_nat j))) H W).
Proof.
  intros Hmain Htype Hkey Hmouse.
  destruct w as [h fs out board running generation].
  destruct Hmain as (l & rows & f & Hboard & Hown & ->). simpl in Hboard, Hown.
  subst board.
  destruct (fill_board _ _ _ _ _ _ _ (λ i j, Z.b2z (ev_choice ev i j)) Hown)
    as (h' & E & Hown').
  exists h'. split; [|split].
  - apply handle_event_key; [done..|]. unfold key_down. rewrite Hkey.
    simpl cfg_H. simpl cfg_W. by rewrite E.
  - exists l, rows. eexists. split; [done|]. split; [exact Hown'|done].
  - apply tabulate_binary. intros i j. destruct (ev_choice ev _ _); auto.
Qed.

Lemma random_fill_witness :
  ∃ h',
    handle_event (Config (Z.of_nat 4) (Z.of_nat 3) ∅ first_listed)
      (Event KEYDOWN K_r false (0, 0)%Z (λ i j, Z.even (i + j))) small_world
    = Continue (World h' (w_files small_world) (w_out small_world)
                  (w_board small_world) (w_running small_world) 0) ∧
    main_board 3 4 (World h' (w_files small_world) (w_out small_world)
                      (w_board small_world) (w_running small_world) 0)
      (tabulate (λ i j, Z.b2z (Z.even (Z.of_nat i + Z.of_nat j))) 3 4) ∧
    binary (tabulate (λ i j, Z.b2z (Z.even (Z.of_nat i + Z.of_nat j))) 3 4).
Proof.
  apply (random_fill 3 4 ∅ first_listed
           (Event KEYDOWN K_r false (0, 0)%Z (λ i j, Z.even (i + j)))
           small_world small_grid).
  - apply small_world_board.
  - reflexivity.
  - reflexivity.
  - reflexivity.
Defined.

(** X20. The key [S] followed by the key [L] restores the board: when the
    board of [main] has dead and alive cells only, at least one of them
    alive, [S] writes it to [saved.txt] and [L] reads the file back and
    makes the board a new board with the same grid, whichever item a
    dictionary yields first; the generation counter is reset, both messages
    are printed and the board that was saved is untouched. *)
Theorem save_then_load_keys (H W : nat) lib first evS evL w g :
  0 < H → 0 < W → main_board H W w g → binary g → alive_cells g ≠ [] →
  (∀ m, m ≠ ∅ → m !! (first m).1 = Some (first m).2) →
  ev_type evS = KEYDOWN → ev_key evS = K_s → mouse_pressed evS = false →
  ev_type evL = KEYDOWN → ev_key evL = K_l → mouse_pressed evL = false →
  ∃ w1 w2,
    handle_event (Config (Z.of_nat W) (Z.of_nat H) lib first) evS w = Continue w1 ∧
    handle_event (Config (Z.of_nat W) (Z.of_nat H) lib first) evL w1 = Continue w2 ∧
    main_board H W w2 g ∧
    is_board (w_heap w2) (w_board w) g ∧
    w_generation w2 = 0%Z ∧ w_running w2 = w_running w ∧
    w_files w2 = <["saved.txt":=encode "Saved" g]> (w_files w) ∧
    w_out w2 = w_out w ++ ["Saved current pattern to saved.txt";
                           "Loaded saved pattern: Saved"].
Proof.
  intros HH HW Hmain Hbin Hcells Hfirst HtS HkS HmS HtL HkL HmL.
  destruct (main_board_is_board _ _ _ _ Hmain) as [Hb Hd].
  destruct w as [h fs out board running generation]. simpl in Hb.
  destruct (make_and_apply H W (alive_cells g) h HH HW) as (l' & rows' & h' & E & Hown').
  assert (owns_board h h' l' rows' (λ i j, cell g (Z.of_nat i) (Z.of_nat j)) H W)
    as Hown.
  { eapply owns_board_ext; [|exact Hown']. intros i j Hi Hj. cbv beta.
    assert (cell_at g (Z.of_nat i) (Z.of_nat j)
            = Some (cell g (Z.of_nat i) (Z.of_nat j))) as Hcell
      by (apply (cell_at_in_range g H W); [done|lia|lia]).
    destruct (binary_cell g (Z.of_nat i) (Z.of_nat j) Hbin) as [E0|E1].
    - rewrite decide_False; [done|]. rewrite elem_of_alive_cells.
      unfold alive. rewrite Hcell, E0. done.
    - rewrite decide_True; [done|]. rewrite elem_of_alive_cells.
      unfold alive. by rewrite Hcell, E1. }
  eexists _, _. split; [|split].
  - apply handle_event_key; [done..|]. unfold key_down. rewrite HkS.
    by rewrite (save_pattern_spec _ _ _ "saved.txt" fs Hb).
  - apply handle_event_key; [done..|]. unfold key_down. rewrite HkL.
    rewrite load_encoded, store_block_named, insert_empty by done.
    change (Ok ?m ≫= ?k) with (k m). cbv beta. simpl cfg_first.
    rewrite bool_decide_eq_true_2 by (apply map_non_empty_singleton).
    assert (first {["Saved" := alive_cells g]} = ("Saved", alive_cells g)) as ->.
    { pose proof (Hfirst {["Saved" := alive_cells g]}
                    (map_non_empty_singleton _ _)) as Hl.
      apply lookup_singleton_Some in Hl as [E1 E2].
      destruct (first _) as [n cs]. simpl in *. by subst. }
    simpl cfg_W. simpl cfg_H. rewrite E. reflexivity.
  - simpl. split; [|split; [|split; [done|split; [done|split; [done|]]]]].
    + exists l', rows'. eexists. split; [done|]. split.
      * eapply owns_board_weaken, Hown.
      * symmetry. by apply tabulate_cell.
    + eapply is_board_mono; [apply Hown|done].
    + by rewrite <- app_assoc.
Qed.

Lemma save_then_load_keys_witness :
  ∃ w1 w2,
    handle_event (Config (Z.of_nat 4) (Z.of_nat 3) ∅ first_listed)
      (Event KEYDOWN K_s false (0, 0)%Z (λ _ _, false)) small_world = Continue w1 ∧
    handle_event (Config (Z.of_nat 4) (Z.of_nat 3) ∅ first_listed)
      (Event KEYDOWN K_l false (0, 0)%Z (λ _ _, false)) w1 = Continue w2 ∧
    main_board 3 4 w2 small_grid ∧
    is_board (w_heap w2) (w_board small_world) small_grid ∧
    w_generation w2 = 0%Z ∧ w_running w2 = w_running small_world ∧
    w_files w2 = <["saved.txt":=encode "Saved" small_grid]> (w_files small_world) ∧
    w_out w2 = w_out small_world ++ ["Saved current pattern to saved.txt";
                                     "Loaded saved pattern: Saved"].
Proof.
  apply (save_then_load_keys 3 4 ∅ first_listed
           (Event KEYDOWN K_s false (0, 0)%Z (λ _ _, false))
           (Event KEYDOWN K_l false (0, 0)%Z (λ _ _, false))
           small_world small_grid).
  - lia.
  - lia.
  - apply small_world_board.
  - apply small_grid_binary.
  - vm_compute. discriminate.
  - apply first_listed_ok.
  - reflexivity.
  - reflexivity.
  - reflexivity.
  - reflexivity.
  - reflexivity.
  - reflexivity.
Defined.

(** ** The torus has no edge *)

Lemma shift_dims n m g H W : dims g H W → dims (shift n m g) H W.
Proof.
  intros [Hlen Hrows]. unfold shift. split.
  - by rewrite length_rotate, length_fmap.
  - apply Forall_forall. intros row Hin%elem_of_rotate.
    apply list_elem_of_fmap in Hin as (row' & -> & Hin').
    rewrite length_rotate. by eapply Forall_forall in Hrows.
Qed.

Lemma cell_shift n m g H W (x y : Z) :
  dims g H W → (0 ≤ x < Z.of_nat H)%Z → (0 ≤ y < Z.of_nat W)%Z →
  cell (shift n m g) x y
  = cell g ((x + Z.of_nat n) mod Z.of_nat H) ((y + Z.of_nat m) mod Z.of_nat W).
Proof.
  intros Hd Hx Hy.
  pose proof (Z.mod_pos_bound (x + Z.of_nat n) (Z.of_nat H)) as Hbx.
  pose proof (Z.mod_pos_bound (y + Z.of_nat m) (Z.of_nat W)) as Hby.
  destruct (dims_cell _ _ _ (Z.to_nat x) (Z.to_nat y) (shift_dims n m _ _ _ Hd))
    as (row_s & Hrow_s & Hcell_s); [lia..|].
  destruct (dims_cell _ _ _
              (Z.to_nat ((x + Z.of_nat n) mod Z.of_nat H))
              (Z.to_nat ((y + Z.of_nat m) mod Z.of_nat W)) Hd)
    as (row & Hrow & Hcell); [lia..|].
  rewrite !Z2Nat.id in Hcell_s, Hcell by lia.
  destruct Hd as [Hlen Hrows].
  unfold shift in Hrow_s.
  rewrite lookup_rotate_r in Hrow_s by (rewrite length_fmap; lia).
  rewrite length_fmap, Hlen, list_lookup_fmap in Hrow_s.
  unfold rotate_nat_add in Hrow_s. rewrite Z2Nat.id in Hrow_s by lia.
  rewrite (Z.add_comm (Z.of_nat n) x), Hrow in Hrow_s. simpl in Hrow_s.
  injection Hrow_s as <-.
  pose proof (Forall_lookup_1 _ _ _ _ Hrows Hrow) as HlenW. simpl in HlenW.
  rewrite lookup_rotate_r in Hcell_s by lia.
  unfold rotate_nat_add in Hcell_s. rewrite HlenW, Z2Nat.id in Hcell_s by lia.
  rewrite (Z.add_comm (Z.of_nat m) y) in Hcell_s. congruence.
Qed.

Lemma neighbor_total_shift n m g H W (i j : Z) :
  dims g H W → 0 < H → 0 < W →
  neighbor_total (shift n m g) H W i j
  = neighbor_total g H W (i + Z.of_nat n) (j + Z.of_nat m).
Proof.
  intros Hd HH HW.
  assert (∀ dx dy,
    cell (shift n m g) ((i + dx) mod Z.of_nat H) ((j + dy) mod Z.of_nat W)
    = cell g ((i + Z.of_nat n + dx) mod Z.of_nat H)
             ((j + Z.of_nat m + dy) mod Z.of_nat W)) as Hcell.
  { intros dx dy.
    rewrite (cell_shift n m g H W) by (done || apply Z.mod_pos_bound; lia).
    rewrite !Zplus_mod_idemp_l. f_equal; f_equal; lia. }
  unfold neighbor_total, torus_neighbors. cbn. by rewrite !Hcell.
Qed.

Lemma neighbor_total_mod g H W (x y : Z) :
  0 < H → 0 < W →
  neighbor_total g H W (x mod Z.of_nat H) (y mod Z.of_nat W)
  = neighbor_total g H W x y.
Proof.
  intros HH HW. unfold neighbor_total.
  rewrite <- (torus_neighbors_shift (Z.of_nat H) (Z.of_nat W)
                (x mod Z.of_nat H) (y mod Z.of_nat W)
                (x / Z.of_nat H) (y / Z.of_nat W)) by lia.
  do 2 f_equal.
  - rewrite (Z.div_mod x (Z.of_nat H)) at 3 by lia. lia.
  - rewrite (Z.div_mod y (Z.of_nat W)) at 3 by lia. lia.
Qed.

Lemma grid_ext g1 g2 H W :
  dims g1 H W → dims g2 H W →
  (∀ i j, i < H → j < W →
     cell g1 (Z.of_nat i) (Z.of_nat j) = cell g2 (Z.of_nat i) (Z.of_nat j)) →
  g1 = g2.
Proof.
  intros Hd1 Hd2 Hcells.
  rewrite <- (tabulate_cell g1 H W Hd1), <- (tabulate_cell g2 H W Hd2).
  unfold tabulate. apply list_fmap_ext. intros k i Hi%lookup_seq.
  apply list_fmap_ext. intros k' j Hj%lookup_seq. apply Hcells; lia.
Qed.

Lemma cell_tabulate f H W i j :
  i < H → j < W → cell (tabulate f H W) (Z.of_nat i) (Z.of_nat j) = f i j.
Proof.
  intros Hi Hj. unfold cell. rewrite cell_at_tabulate, decide_True by lia.
  simpl. by rewrite !Nat2Z.id.
Qed.

(** X21. [next_gen] commutes with cyclic shifts: if one board holds a grid
    and another holds the same grid shifted cyclically by [n] rows and [m]
    columns, the boards [next_gen] returns for them hold grids that differ by
    the same shift.  No row or column of the torus is special. *)
Theorem next_gen_shift n m h1 b1 h2 b2 g H W :
  is_board h1 b1 g → is_board h2 b2 (shift n m g) → dims g H W →
  0 < H → 0 < W →
  ∃ b1' h1' b2' h2' g',
    next_gen b1 h1 = Ok (b1', h1') ∧ next_gen b2 h2 = Ok (b2', h2') ∧
    is_board h1' b1' g' ∧ is_board h2' b2' (shift n m g').
Proof.
  intros Hb1 Hb2 Hd HH HW.
  destruct (next_gen_spec _ _ _ _ _ Hb1 Hd HH HW) as (l1 & rows1 & h1' & E1 & Hown1).
  destruct (next_gen_spec _ _ _ _ _ Hb2 (shift_dims n m _ _ _ Hd) HH HW)
    as (l2 & rows2 & h2' & E2 & Hown2).
  exists (VRef l1), h1', (VRef l2), h2', (tabulate (next_cell g H W) H W).
  split; [done|]. split; [done|]. split; [by eapply owns_board_is_board|].
  replace (shift n m (tabulate (next_cell g H W) H W))
    with (tabulate (next_cell (shift n m g) H W) H W);
    [by eapply owns_board_is_board|].
  apply (grid_ext _ _ H W); [apply tabulate_dims|apply shift_dims, tabulate_dims|].
  intros i j Hi Hj.
  pose proof (Z.mod_pos_bound (Z.of_nat i + Z.of_nat n) (Z.of_nat H)) as Hbi.
  pose proof (Z.mod_pos_bound (Z.of_nat j + Z.of_nat m) (Z.of_nat W)) as Hbj.
  rewrite (cell_tabulate _ _ _ _ _ Hi Hj).
  rewrite (cell_shift n m _ H W) by (apply tabulate_dims || lia).
  set (i' := ((Z.of_nat i + Z.of_nat n) mod Z.of_nat H)%Z) in *.
  set (j' := ((Z.of_nat j + Z.of_nat m) mod Z.of_nat W)%Z) in *.
  rewrite <- (Z2Nat.id i'), <- (Z2Nat.id j') by lia.
  rewrite cell_tabulate by lia. unfold next_cell.
  rewrite !Z2Nat.id by lia.
  rewrite (cell_shift n m g H W) by (done || lia).
  rewrite (neighbor_total_shift n m g H W) by done.
  fold i' j'. subst i' j'. by rewrite neighbor_total_mod.
Qed.

Lemma next_gen_shift_witness :
  ∃ b1' h1' b2' h2' g',
    next_gen (VRef 3) small_heap = Ok (b1', h1') ∧
    next_gen (VRef 3) shifted_heap = Ok (b2', h2') ∧
    is_board h1' b1' g' ∧ is_board h2' b2' (shift 1 1 g').
Proof.
  apply (next_gen_shift 1 1 small_heap (VRef 3) shifted_heap (VRef 3) small_grid 3 4).
  - exists 3, [0; 1; 2]. split; [reflexivity|]. split; [reflexivity|].
    repeat constructor.
  - exists 3, [0; 1; 2]. split; [reflexivity|]. split; [reflexivity|].
    repeat constructor.
  - split; [reflexivity|]. repeat constructor.
  - lia.
  - lia.
Defined.

(** ** The keys of the main loop, continued *)

(** X22. While the simulation is running, any number of turns of the loop
    without events goes through without an exception: after [n] turns the
    generation counter has grown by [n], the board still has its dimensions
    and separate rows, the simulation is still running, and the files, the
    output and every object that existed before are unchanged. *)
Theorem run_steps_generation (H W : nat) (n : nat) w g :
  0 < H → 0 < W → main_board H W w g → w_running w = true →
  ∃ w' g',
    run_steps n w = Ok w' ∧ main_board H W w' g' ∧
    w_generation w' = (w_generation w + Z.of_nat n)%Z ∧
    w_running w' = true ∧ w_files w' = w_files w ∧ w_out w' = w_out w ∧
    w_heap w ⊆ w_heap w'.
Proof.
  intros HH HW. revert w g. induction n as [|n IH]; intros w g Hmain Hrun.
  - exists w, g. repeat split; try done. lia.
  - destruct (main_board_is_board _ _ _ _ Hmain) as [Hb Hd].
    destruct w as [h fs out board running generation]. simpl in Hb, Hrun.
    subst running.
    destruct (next_gen_spec _ _ _ _ _ Hb Hd HH HW) as (l' & rows' & h' & E & Hown').
    destruct (IH (World h' fs out (VRef l') true (generation + 1))
                (tabulate (next_cell g H W) H W))
      as (w' & g' & Erun & Hmain' & Hgen & Hrun' & Hfiles & Hout & Hsub).
    { exists l', rows'. eexists. split; [done|]. split; [|done].
      by eapply owns_board_weaken. }
    { done. }
    exists w', g'. simpl in *. rewrite E. simpl.
    split; [done|]. split; [done|]. split; [lia|].
    split; [done|]. split; [done|]. split; [done|].
    etrans; [apply Hown'|done].
Qed.

Lemma run_steps_generation_witness :
  ∃ w' g',
    run_steps 3 running_world = Ok w' ∧
    main_board 3 4 w' g' ∧
    w_generation w' = (w_generation running_world + Z.of_nat 3)%Z ∧
    w_running w' = true ∧
    w_files w' = w_files running_world ∧
    w_out w' = w_out running_world ∧
    w_heap running_world ⊆ w_heap w'.
Proof.
  apply (run_steps_generation 3 4 3 running_world small_grid).
  - lia.
  - lia.
  - destruct small_world_board as (l & rows & f & Hb & Hown & Hg).
    exists l, rows, f. split; [exact Hb|]. split; [exact Hown|exact Hg].
  - reflexivity.
Defined.

(** X23. A pattern key loads its pattern from the library: for a key
    among [1] to [5] whose pattern name is in the patterns loaded at start,
    the board becomes a new [H]x[W] board in which a cell is alive exactly
    when it is in the coordinates of that pattern and within the bounds, the
    generation counter is reset and the name is printed; when the name is
    not in the library the key changes nothing. *)
Theorem pattern_key_loads (H W : nat) lib first ev w g name :
  0 < H → 0 < W → main_board H W w g →
  ev_type ev = KEYDOWN → mouse_pressed ev = false →
  pattern_keys (ev_key ev) = Some name →
  match lib !! name with
  | Some coords =>
      ∃ w' g',
        handle_event (Config (Z.of_nat W) (Z.of_nat H) lib first) ev w
        = Continue w' ∧
        main_board H W w' g' ∧
        (∀ i j : Z, alive g' i j ↔
           (i, j) ∈ coords ∧ (0 ≤ i < Z.of_nat H)%Z ∧ (0 ≤ j < Z.of_nat W)%Z) ∧
        w_generation w' = 0%Z ∧ w_running w' = w_running w ∧
        w_files w' = w_files w ∧
        w_out w' = w_out w ++ ["Loaded pattern: " +:+ name]
  | None =>
      handle_event (Config (Z.of_nat W) (Z.of_nat H) lib first) ev w = Continue w
  end.
Proof.
  intros HH HW Hmain Htype Hmouse Hkey.
  destruct w as [h fs out board running generation].
  assert (key_down (Config (Z.of_nat W) (Z.of_nat H) lib first) ev
            (World h fs out board running generation)
          = match lib !! name with
            | Some coords =>
                '(board', h') ← (b ← make_board (Z.of_nat W) (Z.of_nat H);
                                 apply_pattern b coords) h;
                Ok (World h' fs (out ++ ["Loaded pattern: " +:+ name])
                      board' running 0)
            | None => Ok (World h fs out board running generation)
            end) as Ekey.
  { unfold key_down. destruct (ev_key ev); simpl in Hkey; try done;
      by injection Hkey as <-. }
  destruct (lib !! name) as [coords|] eqn:Elib.
  - destruct (make_and_apply H W coords h HH HW) as (l' & rows' & h' & E & Hown').
    rewrite E in Ekey. simpl in Ekey.
    eexists _, _. split; [by apply handle_event_key|].
    split; [|split; [|done]].
    + exists l', rows'. eexists. split; [done|]. split; [|done].
      by eapply owns_board_weaken.
    + intros i j. unfold alive. rewrite cell_at_tabulate.
      destruct (decide (_ ∧ _)) as [[Hi Hj]|Hout].
      * rewrite !Z2Nat.id by lia.
        destruct (decide ((i, j) ∈ coords)); (split; [|tauto]); [tauto|done].
      * split; [done|tauto].
  - by apply handle_event_key.
Qed.

Lemma pattern_key_loads_witness :
  match ({["Blinker" := [(1, 0); (1, 1); (1, 2); (7, 7)]%Z]}
           : gmap string (list (Z * Z))) !! "Blinker" with
  | Some coords =>
      ∃ w' g',
        handle_event
          (Config (Z.of_nat 4) (Z.of_nat 3)
             {["Blinker" := [(1, 0); (1, 1); (1, 2); (7, 7)]%Z]} first_listed)
          (Event KEYDOWN K_2 false (0, 0)%Z (λ _ _, false)) small_world
        = Continue w' ∧
        main_board 3 4 w' g' ∧
        (∀ i j : Z, alive g' i j ↔
           (i, j) ∈ coords ∧ (0 ≤ i < Z.of_nat 3)%Z ∧ (0 ≤ j < Z.of_nat 4)%Z) ∧
        w_generation w' = 0%Z ∧ w_running w' = w_running small_world ∧
        w_files w' = w_files small_world ∧
        w_out w' = w_out small_world ++ ["Loaded pattern: " +:+ "Blinker"]
  | None =>
      handle_event
        (Config (Z.of_nat 4) (Z.of_nat 3)
           {["Blinker" := [(1, 0); (1, 1); (1, 2); (7, 7)]%Z]} first_listed)
        (Event KEYDOWN K_2 false (0, 0)%Z (λ _ _, false)) small_world
      = Continue small_world
  end.
Proof.
  apply (pattern_key_loads 3 4
           {["Blinker" := [(1, 0); (1, 1); (1, 2); (7, 7)]%Z]} first_listed
           (Event KEYDOWN K_2 false (0, 0)%Z (λ _ _, false))
           small_world small_grid "Blinker").
  - lia.
  - lia.
  - apply small_world_board.
  - reflexivity.
  - reflexivity.
  - reflexivity.
Defined.
